(** * The WarpDrive normalizer: a shallow embedding of [normalizer.js]

    The source ([src/unnamed/part_001]) rewrites REST-style responses into
    JSON:API documents.  It is ordinary dynamically typed JavaScript, so the
    embedding works over a type of JavaScript values and follows each
    function of the source line by line.

    Conventions of the model.

    - Values are JSON trees: [undefined], [null], booleans, numbers
      (integers, rendered in decimal), strings, arrays and plain objects.
      An object is a finite map from property names to values; the order
      of its keys is not represented.
    - A property read sees own properties only: names inherited from
      [Object.prototype] or [Array.prototype] read as [undefined].
      [String(o)] of a plain object is "[object Object]".
    - The payload is parsed JSON and the serializer hands back a freshly
      built document, so no object is reachable along two different
      paths.  An in-place update ([item.id = ...], [item.type = ...],
      [relationship.links = ...]) is therefore modelled by explicit state
      passing: the function returns the new state of the object it
      mutated and the caller stores it back at the place it was read from.
    - A computation ends in an [outcome]: a value, a thrown [TypeError],
      a behaviour the model does not represent (a property other than
      an index in range set on an array), or exhausted fuel for the one
      recursive function.
    - [pluralize] (from [@warp-drive/utilities/string]) and [serialize]
      (from [jsonapi-fractal]) are libraries outside the repository; they
      are parameters of the development.  [pluralize] is a total function
      on strings; a call of [serialize] returns a document or throws. *)

From stdpp Require Import gmap strings list fin_maps pretty.
From Stdlib Require Import ZArith Lia.

Set Warnings "-register-all".
Open Scope Z_scope.

(** ** JavaScript values *)

Inductive value : Type :=
| VUndefined
| VNull
| VBool (b : bool)
| VNumber (n : Z)
| VString (s : string)
| VArray (items : list value)
| VObject (props : gmap string value).

(** ** Outcomes of a computation *)

Inductive outcome (A : Type) : Type :=
| Ok (a : A)
| Throws
| Unmodelled
| NoFuel.

Arguments Ok {A} a.
Arguments Throws {A}.
Arguments Unmodelled {A}.
Arguments NoFuel {A}.

#[export] Instance outcome_ret : MRet outcome := @Ok.

#[export] Instance outcome_bind : MBind outcome := λ A B f m,
  match m with
  | Ok a => f a
  | Throws => Throws
  | Unmodelled => Unmodelled
  | NoFuel => NoFuel
  end.

#[export] Instance outcome_fmap : FMap outcome := λ A B f m,
  match m with
  | Ok a => Ok (f a)
  | Throws => Throws
  | Unmodelled => Unmodelled
  | NoFuel => NoFuel
  end.

(** A call into a library that either returns or throws. *)
Definition throwing {A} (r : option A) : outcome A :=
  match r with
  | Some a => Ok a
  | None => Throws
  end.

(** [Array.prototype.some], [find] and [filter] with a callback that may
    throw: the callback runs left to right and stops at the first hit. *)

Fixpoint someM {A} (f : A → outcome bool) (l : list A) : outcome bool :=
  match l with
  | [] => Ok false
  | x :: l' => b ← f x; if (b : bool) then Ok true else someM f l'
  end.

Fixpoint findM {A} (f : A → outcome bool) (l : list A) : outcome (option A) :=
  match l with
  | [] => Ok None
  | x :: l' => b ← f x; if (b : bool) then Ok (Some x) else findM f l'
  end.

Fixpoint filterM {A} (f : A → outcome bool) (l : list A) : outcome (list A) :=
  match l with
  | [] => Ok []
  | x :: l' =>
      b ← f x; rest ← filterM f l';
      Ok (if (b : bool) then x :: rest else rest)
  end.

(** [forEach] over a list while threading the state of one object. *)

Fixpoint foldM {A S} (f : S → A → outcome S) (s : S) (l : list A) : outcome S :=
  match l with
  | [] => Ok s
  | x :: l' => s' ← f s x; foldM f s' l'
  end.

(** [Object.entries(o).forEach(...)] where the callback updates the value
    held under each key. *)

Definition entriesM (f : string → value → outcome value)
    (o : gmap string value) : outcome (gmap string value) :=
  list_to_map <$>
    mapM (λ kv : string * value, v' ← f kv.1 kv.2; Ok (kv.1, v')) (map_to_list o).

(** ** Primitive operations of the language *)

(** Truthiness ([ToBoolean]). *)
Definition truthy (v : value) : bool :=
  match v with
  | VUndefined | VNull => false
  | VBool b => b
  | VNumber n => negb (n =? 0)
  | VString s => negb (String.eqb s "")
  | VArray _ | VObject _ => true
  end.

Definition isArray (v : value) : bool :=
  match v with VArray _ => true | _ => false end.

Definition typeof (v : value) : string :=
  match v with
  | VUndefined => "undefined"
  | VNull | VArray _ | VObject _ => "object"
  | VBool _ => "boolean"
  | VNumber _ => "number"
  | VString _ => "string"
  end.

(** [String(v)]; an array is joined with commas, [null] and [undefined]
    elements rendering as the empty string. *)
Fixpoint toString (v : value) : string :=
  match v with
  | VUndefined => "undefined"
  | VNull => "null"
  | VBool b => if b then "true" else "false"
  | VNumber n => pretty n
  | VString s => s
  | VArray items =>
      String.concat ","
        (map (λ x, match x with
                   | VUndefined | VNull => ""
                   | _ => toString x
                   end) items)
  | VObject _ => "[object Object]"
  end.

(** The index an array-index property name denotes, when in range. *)
Definition index_of_key (k : string) (len : nat) : option nat :=
  List.find (λ i, String.eqb (pretty i) k) (seq 0 len).

Definition char_at (s : string) (i : nat) : value :=
  match String.get i s with
  | Some c => VString (String c EmptyString)
  | None => VUndefined
  end.

(** [v[k]]: reading a property. *)
Definition get (v : value) (k : string) : outcome value :=
  match v with
  | VUndefined | VNull => Throws
  | VObject o => Ok (default VUndefined (o !! k))
  | VArray xs =>
      match index_of_key k (length xs) with
      | Some i => Ok (default VUndefined (xs !! i))
      | None =>
          if String.eqb k "length" then Ok (VNumber (Z.of_nat (length xs)))
          else Ok VUndefined
      end
  | VString s =>
      match index_of_key k (String.length s) with
      | Some i => Ok (char_at s i)
      | None =>
          if String.eqb k "length" then Ok (VNumber (Z.of_nat (String.length s)))
          else Ok VUndefined
      end
  | VBool _ | VNumber _ => Ok VUndefined
  end.

(** [v[k] = x] in strict-mode code (the source is an ES module): the new
    state of [v].  Assigning to a property of a primitive throws. *)
Definition set_prop (v : value) (k : string) (x : value) : outcome value :=
  match v with
  | VObject o => Ok (VObject (<[k := x]> o))
  | VArray xs =>
      match index_of_key k (length xs) with
      | Some i => Ok (VArray (<[i := x]> xs))
      | None => Unmodelled
      end
  | _ => Throws
  end.

(** State passing: the object read from [parent[k]] was updated in place
    and is now [child].  Primitives are immutable, nothing to store. *)
Definition store_back (parent : value) (k : string) (child : value) : value :=
  match child with
  | VObject _ | VArray _ =>
      match parent with
      | VObject o => VObject (<[k := child]> o)
      | VArray xs =>
          match index_of_key k (length xs) with
          | Some i => VArray (<[i := child]> xs)
          | None => parent
          end
      | _ => parent
      end
  | _ => parent
  end.

(** [{...v}]: the own enumerable properties of [v]. *)
Definition indexed {A} (f : A → value) (l : list A) : gmap string value :=
  list_to_map (imap (λ i x, (pretty i, f x)) l).

Definition spread (v : value) : gmap string value :=
  match v with
  | VObject o => o
  | VArray xs => indexed id xs
  | VString s => indexed (λ c, VString (String c EmptyString)) (String.list_ascii_of_string s)
  | _ => ∅
  end.

(** [a || b] *)
Definition js_or (a : value) (b : outcome value) : outcome value :=
  if truthy a then Ok a else b.

(** [v === 'literal'] *)
Definition strict_eq_string (v : value) (s : string) : bool :=
  match v with
  | VString s' => String.eqb s' s
  | _ => false
  end.

(** [names.includes(v)] for an array literal of strings. *)
Definition includes (names : list string) (v : value) : bool :=
  match v with
  | VString s => bool_decide (s ∈ names)
  | _ => false
  end.

(** ** The schema registry and the request context

    [schema_fields sc type] stands for
    [Array.from(schema.fields({ type }).values())]: [None] when that
    expression throws, otherwise the declared fields in declaration
    order.  [schema_types] stands for [[...schema._schemas.keys()]]. *)

Record schema : Type := {
  schema_types : list string;
  schema_fields : string → option (list value)
}.

Record request : Type := {
  request_schema : schema;
  request_url : string
}.

(** ** Lines 5-8: type tests *)

Definition isObject (v : value) : bool :=
  truthy v && String.eqb (typeof v) "object" && negb (isArray v).

Definition isPrimitive (v : value) : bool :=
  String.eqb (typeof v) "string" || String.eqb (typeof v) "number".

(** ** Stand-ins for the two external libraries

    Concrete instances of the parameters, used to run the normalizer on
    examples.  [pluralize_model] follows the default rules of the
    pluralization utility as far as the examples need them: an
    uncountable word or a word that already ends in "s" is its own
    plural, any other word takes an "s".  [serialize_model] builds the
    document of a resource the way the default transformer of the
    serializer does: the fields named in [options.relationships] become
    linkage objects typed by the field name, the objects they hold
    become included resources when [options.included] is set, and the
    other fields become attributes. *)

Definition uncountable : list string :=
  ["equipment"; "information"; "rice"; "money"; "species"; "series";
   "fish"; "sheep"; "jeans"; "police"].

Definition ends_with_s (s : string) : bool :=
  match rev (String.list_ascii_of_string s) with
  | c :: _ => String.eqb (String c EmptyString) "s"
  | [] => false
  end.

Definition pluralize_model (s : string) : string :=
  if bool_decide (s ∈ uncountable) then s
  else if ends_with_s s then s
  else s +:+ "s".

Definition prop_of (v : value) (k : string) : value :=
  match get v k with
  | Ok x => x
  | _ => VUndefined
  end.

Definition linkage_model (relName : string) (item : value) : value :=
  VObject (<["type" := VString relName]> {["id" := prop_of item "id"]}).

Definition related_model (relName : string) (item : value) : value :=
  VObject (<["type" := VString relName]>
          (<["id" := prop_of item "id"]>
             {["attributes" := VObject (delete "id" (spread item))]})).

Definition serialize_model (resource : value) (type : string) (options : value)
    : option value :=
  match get resource "id", get options "included", get options "relationships" with
  | Ok id, Ok wanted, Ok asked =>
      let names := match asked with
                   | VArray ns => map toString ns
                   | _ => []
                   end in
      let present := List.filter (λ n, truthy (prop_of resource n)) names in
      let attributes :=
        VObject (foldr delete (delete "id" (spread resource)) names) in
      let relationships : gmap string value :=
        list_to_map
          (map (λ n, (n, VObject {["data" :=
                      match prop_of resource n with
                      | VArray items => VArray (map (linkage_model n) items)
                      | item => linkage_model n item
                      end]})) present) in
      let included :=
        flat_map (λ n, match prop_of resource n with
                       | VArray items => map (related_model n) items
                       | item => [related_model n item]
                       end) present in
      let data : gmap string value :=
        <["type" := VString type]> (<["id" := id]> {["attributes" := attributes]}) in
      let data := match names with
                  | [] => data
                  | _ => <["relationships" := VObject relationships]> data
                  end in
      if truthy wanted
      then Some (VObject (<["data" := VObject data]> {["included" := VArray included]}))
      else Some (VObject {["data" := VObject data]})
  | _, _, _ => None
  end.

(** ** Example data

    The schemas of the application ([app/data/schemas]) and the type map
    its request handler passes ([app/data/handlers/normalize.js]). *)

Definition declared (kind name : string) : value :=
  VObject (<["kind" := VString kind]> {["name" := VString name]}).

Definition articleFields : list value :=
  [declared "field" "body"; declared "field" "description";
   declared "field" "favorited"; declared "field" "favoritesCount";
   declared "field" "slug"; declared "field" "title";
   declared "field" "tagList"; declared "belongsTo" "author";
   declared "field" "updatedAt"; declared "field" "createdAt"].

Definition userFields : list value :=
  [declared "field" "username"; declared "field" "bio";
   declared "field" "image"; declared "field" "following"].

Definition tagFields : list value := [declared "field" "name"].

Definition appSchema : schema := {|
  schema_types := ["article"; "user"; "profile"; "tag"];
  schema_fields := λ type,
    if String.eqb type "article" then Some articleFields
    else if String.eqb type "user" then Some userFields
    else if String.eqb type "profile" then Some userFields
    else if String.eqb type "tag" then Some tagFields
    else None
|}.

Definition appRequest : request :=
  {| request_schema := appSchema; request_url := "/api/articles" |}.

Definition appTypeMap : gmap string string :=
  <["author" := "user"]> {["comments" := "comment"]}.



(** ** Readings of the specification used for comparison

    [first_truthy] is the value of [a || b || ... || last].
    [field_of o k] is [o[k]] for a plain object.
    [propertyName_by_preference] follows the wording of the
    specification for the attribute name of a coerced primitive: the
    first name of the preference order that occurs among the declared
    plain fields. *)

Definition field_of (o : gmap string value) (k : string) : value :=
  default VUndefined (o !! k).

(** The identifier as the specification words it: the first of the four
    fields that is present on the object. *)
Definition resolveId_by_presence (o : gmap string value) : value :=
  match o !! "id", o !! "slug", o !! "username", o !! "name" with
  | Some v, _, _, _ => v
  | None, Some v, _, _ => v
  | None, None, Some v, _ => v
  | None, None, None, Some v => v
  | None, None, None, None => VUndefined
  end.

Fixpoint first_truthy (candidates : list value) (last : value) : value :=
  match candidates with
  | [] => last
  | v :: rest => if truthy v then v else first_truthy rest last
  end.






(** ** The normalizer *)

Section Normalizer.

Variable pluralize : string → string.
Variable serialize : value → string → value → option value.

(** Lines 17-21. *)
Definition detectResourceType (knownTypes : list string) (data : value)
    : outcome string :=
  found ← findM (λ type,
             a ← get data type;
             if truthy a then Ok true
             else b ← get data (pluralize type); Ok (truthy b)) knownTypes;
  Ok (match found with
      | Some type => if String.eqb type "" then "unknown" else type
      | None => "unknown"
      end).

(** Lines 30-32. *)
Definition isCollectionResponse (knownTypes : list string) (data : value)
    : outcome bool :=
  someM (λ type, v ← get data (pluralize type); Ok (truthy v)) knownTypes.

(** Lines 40-43. *)
Definition extractResourceId (resource : value) : outcome value :=
  if isPrimitive resource then Ok (VString (toString resource))
  else
    id ← get resource "id";
    js_or id (slug ← get resource "slug";
    js_or slug (username ← get resource "username";
    js_or username (get resource "name"))).

(** Lines 63-80: the property name that will hold a primitive. *)
Definition preferredNames : list string :=
  ["name"; "title"; "label"; "text"; "value"].

Definition isNameField (field : value) : outcome bool :=
  kind ← get field "kind";
  if strict_eq_string kind "field"
  then name ← get field "name"; Ok (includes preferredNames name)
  else Ok false.

Definition inferPropertyName (sc : option schema) (type : string) : value :=
  match sc with
  | None => VString "value"
  | Some sc =>
      match schema_fields sc type with
      | None => VString "value"
      | Some fields =>
          match findM isNameField fields with
          | Ok (Some nameField) =>
              if truthy nameField
              then match get nameField "name" with
                   | Ok name => name
                   | _ => VString "value"
                   end
              else VString "value"
          | _ => VString "value"
          end
      end
  end.

(** Lines 82-85: one element of the coerced array. *)
Definition coerce (propertyName : value) (item : value) : value :=
  VObject (<[toString propertyName := item]>
             {["id" := VString (toString item)]}).

(** Lines 54-89.  Returns [data], whose plural key may have been
    reassigned. *)
Definition normalizeResourceData (data : value) (type : string)
    (sc : option schema) : outcome value :=
  let pluralKey := pluralize type in
  resourceArray ← get data pluralKey;
  match resourceArray with
  | VArray items =>
      if existsb isPrimitive items then
        let propertyName := inferPropertyName sc type in
        set_prop data pluralKey (VArray (map (coerce propertyName) items))
      else Ok data
  | _ => Ok data
  end.

(** Lines 98-106. *)
Definition isRelationshipField (field : value) : outcome bool :=
  kind ← get field "kind"; Ok (includes ["belongsTo"; "hasMany"] kind).

Definition getSchemaRelationships (sc : option schema) (type : string)
    : list value :=
  match sc with
  | None => []
  | Some sc =>
      match schema_fields sc type with
      | None => []
      | Some fields =>
          match (kept ← filterM isRelationshipField fields;
                 mapM (λ field, get field "name") kept) with
          | Ok names => names
          | _ => []
          end
      end
  end.

(** Lines 120-124: the inner [forEach] callback; the new state of
    [item]. *)
Definition fillId (item : value) : outcome value :=
  if isObject item then
    id ← get item "id";
    if negb (truthy id) then
      newId ← extractResourceId item; set_prop item "id" newId
    else Ok item
  else Ok item.

(** Lines 115-125: the outer [forEach] callback; the new state of
    [resource]. *)
Definition ensureRelationshipId (resource : value) (relName : value)
    : outcome value :=
  let key := toString relName in
  relData ← get resource key;
  if negb (truthy relData) then Ok resource
  else
    relData' ← match relData with
               | VArray items => VArray <$> mapM fillId items
               | item => fillId item
               end;
    Ok (store_back resource key relData').

(** Lines 114-126.  The new state of [resource]. *)
Definition ensureRelationshipIds (resource : value) (relationships : list value)
    : outcome value :=
  foldM ensureRelationshipId resource relationships.

(** Lines 139-142. *)
Definition linksFor (baseUrl : string) (resourceId : value) (relName : string)
    : value :=
  let prefix := baseUrl +:+ "/" +:+ toString resourceId +:+ "/" in
  VObject (<["self" := VString (prefix +:+ "relationships/" +:+ relName)]>
             {["related" := VString (prefix +:+ relName)]}).

(** Lines 135-144.  The new state of [relationships]. *)
Definition addJsonApiLinks (relationships : value) (baseUrl : string)
    (resourceId : value) : outcome value :=
  if negb (truthy relationships) then Ok relationships
  else
    let addLinks relName relationship :=
      set_prop relationship "links" (linksFor baseUrl resourceId relName) in
    match relationships with
    | VObject o => VObject <$> entriesM addLinks o
    | VArray xs =>
        VArray <$> mapM (λ ix, addLinks (pretty ix.1) ix.2) (imap pair xs)
    | VString _ => Throws
    | _ => Ok relationships
    end.

(** Lines 160-163: one entry of the rewritten [included] list. *)
Definition mapIncluded (relationshipTypeMap : gmap string string)
    (item : value) : outcome value :=
  let copy := spread item in
  type ← get item "type";
  let mapped := match relationshipTypeMap !! toString type with
                | Some target => VString target
                | None => VUndefined
                end in
  type' ← js_or mapped (Ok type);
  Ok (VObject (<["type" := type']> copy)).

(** Lines 168-176: the [forEach] callback; the new state of
    [relationship]. *)
Definition mapRelationship (relationshipTypeMap : gmap string string)
    (relName : string) (relationship : value) : outcome value :=
  match relationshipTypeMap !! relName with
  | Some targetType =>
      if truthy (VString targetType) then
        relData ← get relationship "data";
        if truthy relData then
          let setType item := set_prop item "type" (VString targetType) in
          relData' ← match relData with
                     | VArray dataItems => VArray <$> mapM setType dataItems
                     | item => setType item
                     end;
          Ok (store_back relationship "data" relData')
        else Ok relationship
      else Ok relationship
  | None => Ok relationship
  end.

(** Lines 153-180.  Returns the new state of [data] and the value the
    call returns. *)
Definition mapTypes (data : value) (relationshipTypeMap : gmap string string)
    : outcome (value * value) :=
  if negb (truthy data) then Ok (data, data)
  else
    match data with
    | VArray items =>
        if negb (truthy (VNumber (Z.of_nat (length items))))
        then Ok (data, VUndefined)
        else
          items' ← mapM (mapIncluded relationshipTypeMap) items;
          Ok (data, VArray items')
    | VObject o =>
        o' ← entriesM (mapRelationship relationshipTypeMap) o;
        Ok (VObject o', VObject o')
    | _ => Ok (data, data)
    end.

(** Lines 198-201: the options handed to the serializer. *)
Definition serializeOptions (relationships : list value)
    (hasRelationships : bool) : value :=
  VObject (<["relationships" :=
               if hasRelationships then VArray relationships else VUndefined]>
             {["included" := VBool hasRelationships]}).

(** Lines 191-202.  Returns the new state of [resource] and the
    serialized document. *)
Definition serializeResource (resource : value) (type : string)
    (relationships : list value) (hasRelationships : bool)
    : outcome (value * value) :=
  id ← extractResourceId resource;
  resource' ← (if hasRelationships
               then ensureRelationshipIds resource relationships
               else Ok resource);
  result ← throwing
    (serialize (VObject (<["id" := id]> (spread resource'))) type
       (serializeOptions relationships hasRelationships));
  Ok (resource', result).

(** Lines 254-269: the base case, a single resource.  Returns the new
    state of [document] and the normalized document. *)
Definition normalizeSingle (document : value) (type : string)
    (relationships : list value) (hasRelationships : bool) (url : string)
    (relationshipTypeMap : gmap string string) : outcome (value * value) :=
  resource ← get document type;
  '(resource', result) ←
    serializeResource resource type relationships hasRelationships;
  let document' := store_back document type resource' in
  if hasRelationships then
    data ← get result "data";
    rels ← get data "relationships";
    resourceId ← get data "id";
    rels1 ← addJsonApiLinks rels url resourceId;
    '(rels2, _) ← mapTypes rels1 relationshipTypeMap;
    let result1 := store_back result "data" (store_back data "relationships" rels2) in
    included ← get result1 "included";
    '(_, included') ← mapTypes included relationshipTypeMap;
    result2 ← set_prop result1 "included" included';
    Ok (document', result2)
  else Ok (document', result).

(** Line 248: the [flatMap] callback and the one-level flattening. *)
Definition includedOf (r : value) : outcome (list value) :=
  included ← get r "included";
  v ← js_or included (Ok (VArray []));
  Ok (match v with
      | VArray items => items
      | x => [x]
      end).

(** Lines 215-270.  [fuel] bounds the depth of the recursion.  Returns
    the new state of [document] and the normalized document. *)
Fixpoint normalizeResourceRecursive (fuel : nat) (document : value)
    (type : string) (relationships : list value) (hasRelationships : bool)
    (url : string) (relationshipTypeMap : gmap string string)
    : outcome (value * value) :=
  match fuel with
  | O => NoFuel
  | S fuel' =>
      let knownTypes := [type] in
      collection ← isCollectionResponse knownTypes document;
      if (collection : bool) then
        let pluralType := pluralize type in
        elements ← get document pluralType;
        match elements with
        | VArray items =>
            resources ← mapM (λ resource,
                let singleResourceData := VObject {[type := resource]} in
                '(single', r) ← normalizeResourceRecursive fuel'
                    singleResourceData type relationships hasRelationships
                    url relationshipTypeMap;
                resource' ← get single' type;
                Ok (resource', r)) items;
            let document' := store_back document pluralType (VArray resources.*1) in
            datas ← mapM (λ r, get r "data") resources.*2;
            let result : gmap string value := {["data" := VArray datas]} in
            if hasRelationships then
              includeds ← mapM includedOf resources.*2;
              Ok (document', VObject (<["included" := VArray (concat includeds)]> result))
            else Ok (document', VObject result)
        | _ => Throws
        end
      else
        normalizeSingle document type relationships hasRelationships url
          relationshipTypeMap
  end.

(** Lines 281-302.  Returns the new state of [item] and the normalized
    document. *)
Definition normalizeResource (fuel : nat) (item : value) (req : request)
    (relationshipTypeMap : gmap string string) : outcome (value * value) :=
  let sc := request_schema req in
  let url := request_url req in
  let knownTypes := schema_types sc in
  type ← detectResourceType knownTypes item;
  document ← normalizeResourceData item type (Some sc);
  let relationships := getSchemaRelationships (Some sc) type in
  let hasRelationships := bool_decide (0 < length relationships)%nat in
  normalizeResourceRecursive fuel document type relationships
    hasRelationships url relationshipTypeMap.

(** The two halves of the collection branch (lines 230-241 and
    243-251), named so that statements can refer to them. *)

(** One element of a collection: wrap, recurse, read the element back. *)
Definition normalizeElement (fuel : nat) (type : string)
    (relationships : list value) (hasRelationships : bool) (url : string)
    (relationshipTypeMap : gmap string string) (resource : value)
    : outcome (value * value) :=
  '(single', r) ← normalizeResourceRecursive fuel
      (VObject {[type := resource]}) type relationships hasRelationships
      url relationshipTypeMap;
  resource' ← get single' type;
  Ok (resource', r).

(** Lines 243-251: the aggregation of the per-element results. *)
Definition aggregate (document : value) (type : string)
    (hasRelationships : bool) (resources : list (value * value))
    : outcome (value * value) :=
  let document' := store_back document (pluralize type) (VArray resources.*1) in
  datas ← mapM (λ r, get r "data") resources.*2;
  let result : gmap string value := {["data" := VArray datas]} in
  if hasRelationships then
    includeds ← mapM includedOf resources.*2;
    Ok (document', VObject (<["included" := VArray (concat includeds)]> result))
  else Ok (document', VObject result).

(** ** Vocabulary of the statements *)




(** ** The back-fill as a function on values

    What lines 114-126 compute on a resource object, written without
    the outcome plumbing; [ensureRelationshipIds_object] below shows
    that the code computes exactly this. *)

Definition fill (item : value) : value :=
  match item with
  | VObject o =>
      if truthy (field_of o "id") then item
      else VObject (<["id" :=
             first_truthy [field_of o "id"; field_of o "slug"; field_of o "username"]
               (field_of o "name")]> o)
  | _ => item
  end.

Definition backfill (relData : value) : value :=
  match relData with
  | VArray items => VArray (map fill items)
  | item => fill item
  end.

Definition backfilled (relationships : list value) (o : gmap string value)
    : gmap string value :=
  foldl (λ o relName, alter backfill (toString relName) o) o relationships.

(** The linked items of a relationship field, as lines 119 and 171
    collect them. *)
Definition itemsOf (relData : value) : list value :=
  match relData with
  | VArray items => items
  | item => [item]
  end.

(** What lines 171-174 do to the linked references of a relationship
    mapped to [target], and what line 162 makes of the type of an
    included resource. *)
Definition retype (target : string) (item : value) : value :=
  match item with
  | VObject o => VObject (<["type" := VString target]> o)
  | _ => item
  end.

Definition retyped (target : string) (relData : value) : value :=
  match relData with
  | VArray items => VArray (map (retype target) items)
  | item => retype target item
  end.


(** What lines 139-142 and lines 168-176 make of one relationship. *)
Definition withLinks (baseUrl : string) (resourceId : value)
    (relName : string) (relationship : value) : value :=
  match relationship with
  | VObject rel => VObject (<["links" := linksFor baseUrl resourceId relName]> rel)
  | _ => relationship
  end.

Definition remapped (relationshipTypeMap : gmap string string)
    (relName : string) (relationship : value) : value :=
  match relationshipTypeMap !! relName, relationship with
  | Some target, VObject rel =>
      if truthy (VString target) && truthy (field_of rel "data")
      then VObject (<["data" := retyped target (field_of rel "data")]> rel)
      else relationship
  | _, _ => relationship
  end.


(** The shape of a relationship the serializer returns: an object
    whose [data], when truthy, is a linkage object or an array of
    linkage objects. *)
Definition relationship_shaped (relationship : value) : Prop :=
  ∃ rel : gmap string value,
    relationship = VObject rel ∧
    (truthy (field_of rel "data") = true →
     Forall (λ item, isObject item = true) (itemsOf (field_of rel "data"))).

(** How deep arrays are nested in a value: 0 for anything but an array,
    one more than its deepest element for an array. *)
Fixpoint array_depth (v : value) : nat :=
  match v with
  | VArray items => S (foldr (λ x d, Nat.max (array_depth x) d) 0%nat items)
  | _ => 0%nat
  end.


(** A computation that did not stop for lack of fuel. *)
Definition settled {A} (m : outcome A) : Prop := m ≠ NoFuel.

(** ** Basic facts about the language operations *)

Lemma bind_Ok_inv {A B} (f : A → outcome B) (m : outcome A) (b : B) :
  m ≫= f = Ok b → ∃ a, m = Ok a ∧ f a = Ok b.
Proof. destruct m; try discriminate. eauto. Qed.

(** Inversion of a chain of binds that ended in a value. *)
Ltac inv_binds H :=
  repeat match type of H with
         | (_ ≫= _) = Ok _ =>
             let x := fresh "x" in
             let Hx := fresh "Hx" in
             apply bind_Ok_inv in H as (x & Hx & H)
         | (let '(_, _) := ?p in _) = Ok _ => destruct p
         end.

Lemma get_object (o : gmap string value) (k : string) :
  get (VObject o) k = Ok (field_of o k).
Proof. reflexivity. Qed.

Lemma field_of_insert_eq (o : gmap string value) (k : string) (x : value) :
  field_of (<[k := x]> o) k = x.
Proof. unfold field_of. by rewrite lookup_insert_eq. Qed.

Lemma field_of_insert_ne (o : gmap string value) (k k' : string) (x : value) :
  k ≠ k' → field_of (<[k := x]> o) k' = field_of o k'.
Proof. intros H. unfold field_of. by rewrite lookup_insert_ne. Qed.

Lemma index_of_key_Some (k : string) (len i : nat) :
  index_of_key k len = Some i → (i < len)%nat ∧ pretty i = k.
Proof.
  unfold index_of_key. intros H. apply find_some in H as [Hin Heq].
  apply in_seq in Hin. apply String.eqb_eq in Heq. split; [lia | done].
Qed.

Lemma isObject_spec (v : value) :
  isObject v = true ↔ ∃ o, v = VObject o.
Proof.
  split.
  - destruct v as [| | [] | n | s | xs | o]; unfold isObject; cbn;
      rewrite ?andb_false_r; try done. eauto.
  - intros [o ->]. reflexivity.
Qed.

Lemma get_cases (v : value) (k : string) :
  get v k = Throws ∨ ∃ x, get v k = Ok x.
Proof.
  destruct v as [| | | | s | xs |]; cbn; eauto.
  - destruct (index_of_key _ _); eauto. destruct (String.eqb k "length"); eauto.
  - destruct (index_of_key _ _); eauto. destruct (String.eqb k "length"); eauto.
Qed.

(** Storing back the very object that was read changes nothing. *)
Lemma store_back_get (parent : value) (k : string) (child : value) :
  get parent k = Ok child → store_back parent k child = parent.
Proof.
  destruct parent as [| | b | n | s | xs | o]; cbn; try discriminate.
  1-3: intros _; by destruct child.
  - destruct (index_of_key k (length xs)) as [i|] eqn:Hi.
    + destruct (index_of_key_Some _ _ _ Hi) as [Hlt _].
      destruct (lookup_lt_is_Some_2 xs i Hlt) as [x Hx].
      rewrite Hx. cbn. intros [= <-].
      destruct x; try done; cbn; by rewrite Hi, list_insert_id.
    + destruct (String.eqb k "length"); intros [= <-]; done.
  - intros [= <-]. unfold field_of.
    destruct (o !! k) as [x|] eqn:Hx; cbn; [|done].
    destruct x; try done; cbn; by rewrite insert_id.
Qed.

(** ** Lines 30-32: collection detection *)

Lemma isCollectionResponse_single (type : string) (data : value) :
  isCollectionResponse [type] data = (v ← get data (pluralize type); Ok (truthy v)).
Proof.
  unfold isCollectionResponse. cbn.
  destruct (get data (pluralize type)) as [v| | |]; cbn; try done.
  by destruct (truthy v).
Qed.

(** ** Lines 40-43: the identifier of a resource *)

Lemma extractResourceId_object (o : gmap string value) :
  extractResourceId (VObject o) =
    Ok (first_truthy [field_of o "id"; field_of o "slug"; field_of o "username"]
          (field_of o "name")).
Proof.
  unfold extractResourceId, js_or, field_of. cbn.
  destruct (truthy (default VUndefined (o !! "id"))); [done|].
  destruct (truthy (default VUndefined (o !! "slug"))); [done|].
  by destruct (truthy (default VUndefined (o !! "username"))).
Qed.

(** C5, as amended.  The identifier of a string or a number is its
    string form.  For a resource object it is the first truthy value
    among [id], [slug], [username], [name], in that order, and the
    value of [name] when none is truthy: a field that is absent or
    holds 0, the empty string, [null] or [false] is skipped.  In
    particular an object without a truthy [id] and with a truthy
    [slug] resolves to the slug. *)
Theorem extractResourceId_first_truthy :
  (∀ resource, isPrimitive resource = true →
     extractResourceId resource = Ok (VString (toString resource))) ∧
  (∀ o, extractResourceId (VObject o) =
     Ok (first_truthy [field_of o "id"; field_of o "slug"; field_of o "username"]
           (field_of o "name"))) ∧
  (∀ o slug, truthy (field_of o "id") = false →
     o !! "slug" = Some slug → truthy slug = true →
     extractResourceId (VObject o) = Ok slug).
Proof.
  split; [|split].
  - intros resource H. unfold extractResourceId. by rewrite H.
  - apply extractResourceId_object.
  - intros o slug Hid Hslug Ht. rewrite extractResourceId_object.
    cbn -[field_of]. rewrite Hid.
    replace (field_of o "slug") with slug by (unfold field_of; by rewrite Hslug).
    by rewrite Ht.
Qed.

(** ** Lines 54-89: coercion of primitive arrays *)

Lemma normalizeResourceData_coerces (data : value) (type : string)
    (sc : option schema) (items : list value) :
  get data (pluralize type) = Ok (VArray items) →
  existsb isPrimitive items = true →
  normalizeResourceData data type sc =
    set_prop data (pluralize type)
      (VArray (map (coerce (inferPropertyName sc type)) items)).
Proof.
  intros Hget Hsome. unfold normalizeResourceData.
  rewrite Hget. cbn. by rewrite Hsome.
Qed.

Lemma normalizeResourceData_untouched (data : value) (type : string)
    (sc : option schema) (v : value) :
  get data (pluralize type) = Ok v →
  (∀ items, v = VArray items → existsb isPrimitive items = false) →
  normalizeResourceData data type sc = Ok data.
Proof.
  intros Hget Hnone. unfold normalizeResourceData.
  rewrite Hget. cbn. destruct v; try done.
  by rewrite (Hnone _ eq_refl).
Qed.








(** A coerced array holds no primitive. *)




(** ** Lines 114-126: back-filling relationship ids *)

Lemma mapM_pure {A B} (f : A → outcome B) (g : A → B) (l : list A) :
  (∀ x, x ∈ l → f x = Ok (g x)) → mapM f l = Ok (map g l).
Proof.
  induction l as [|x l IH]; intros H; [done|].
  cbn. rewrite (H x) by left. cbn. rewrite IH; [done|].
  intros y Hy. apply H. by right.
Qed.

Lemma fillId_fill (item : value) : fillId item = Ok (fill item).
Proof.
  unfold fillId. destruct (isObject item) eqn:Hobj.
  - apply isObject_spec in Hobj as [o ->].
    rewrite get_object. cbn -[field_of first_truthy extractResourceId].
    destruct (truthy (field_of o "id")) eqn:Hid;
      cbn -[field_of first_truthy extractResourceId].
    + done.
    + by rewrite extractResourceId_object.
  - by destruct item.
Qed.

Lemma fill_idempotent (item : value) : fill (fill item) = fill item.
Proof.
  destruct item as [| | | | | |o]; try done.
  cbn -[field_of]. destruct (truthy (field_of o "id")) eqn:Hid.
  { cbn -[field_of]. by rewrite Hid. }
  set (w := if truthy (field_of o "slug") then _ else _).
  cbn -[field_of].
  assert (field_of (<["id" := w]> o) "id" = w) as Hw.
  { unfold field_of. by rewrite lookup_insert_eq. }
  assert (∀ k, k ≠ "id" → field_of (<["id" := w]> o) k = field_of o k) as Hk.
  { intros k Hne. unfold field_of. by rewrite lookup_insert_ne. }
  rewrite Hw. destruct (truthy w) eqn:Htw; [done|].
  rewrite !Hk by done. fold w. by rewrite insert_insert_eq.
Qed.

Lemma backfill_idempotent (relData : value) :
  backfill (backfill relData) = backfill relData.
Proof.
  destruct relData as [| | | | | items | o]; try done.
  - cbn. f_equal. rewrite map_map. apply map_ext. intros x. apply fill_idempotent.
  - change (backfill (VObject o)) with (fill (VObject o)).
    pose proof (fill_idempotent (VObject o)) as H.
    destruct (fill (VObject o)) eqn:Hf; try done.
    cbn in Hf. by destruct (truthy (field_of o "id")).
Qed.

Lemma backfill_falsy (relData : value) :
  truthy relData = false → backfill relData = relData.
Proof. by destruct relData. Qed.

Lemma backfill_outcome (relData : value) :
  match relData with
  | VArray items => VArray <$> mapM fillId items
  | item => fillId item
  end = Ok (backfill relData).
Proof.
  destruct relData as [| | | | | items | o]; try apply fillId_fill.
  rewrite (mapM_pure _ fill); [done|]. intros x _. apply fillId_fill.
Qed.

Lemma alter_present {A} (f : A → A) (k : string) (m : gmap string A) (x : A) :
  m !! k = Some x → alter f k m = <[k := f x]> m.
Proof.
  intros H. apply map_eq. intros j. rewrite lookup_alter, lookup_insert.
  case_decide; [subst; by rewrite H | done].
Qed.

Lemma ensureRelationshipId_object (o : gmap string value) (relName : value) :
  ensureRelationshipId (VObject o) relName =
    Ok (VObject (alter backfill (toString relName) o)).
Proof.
  unfold ensureRelationshipId. rewrite get_object. cbn -[field_of backfill].
  destruct (truthy (field_of o (toString relName))) eqn:Ht; cbn -[field_of backfill].
  - rewrite backfill_outcome. cbn -[field_of backfill]. f_equal.
    unfold field_of in *.
    destruct (o !! toString relName) as [v|] eqn:Hv; [|done]. cbn in *.
    destruct v as [| | | | | items | fields];
      try (cbn; f_equal; symmetry; apply alter_id;
           intros x Hx; rewrite Hv in Hx; by injection Hx as <-).
    + rewrite (alter_present _ _ _ _ Hv). done.
    + rewrite (alter_present _ _ _ _ Hv).
      change (backfill (VObject fields)) with (fill (VObject fields)).
      cbn. by destruct (truthy (field_of fields "id")).
  - do 2 f_equal. symmetry. apply alter_id. intros v Hv.
    apply backfill_falsy. unfold field_of in Ht. by rewrite Hv in Ht.
Qed.

Lemma ensureRelationshipIds_object (o : gmap string value)
    (relationships : list value) :
  ensureRelationshipIds (VObject o) relationships =
    Ok (VObject (backfilled relationships o)).
Proof.
  unfold ensureRelationshipIds, backfilled.
  revert o. induction relationships as [|r rels IH]; intros o; [done|].
  cbn -[ensureRelationshipId]. rewrite ensureRelationshipId_object.
  cbn -[ensureRelationshipId]. apply IH.
Qed.

Lemma backfilled_lookup (relationships : list value) (o : gmap string value)
    (k : string) :
  backfilled relationships o !! k =
    if decide (k ∈ map toString relationships)
    then backfill <$> o !! k else o !! k.
Proof.
  unfold backfilled. revert o.
  induction relationships as [|r rels IH]; intros o; cbn -[toString backfill].
  { rewrite decide_False; [done | apply not_elem_of_nil]. }
  rewrite IH, lookup_alter.
  destruct (decide (toString r = k)) as [<- | Hne].
  - rewrite (decide_True (P := _ ∈ _ :: _)) by left.
    case_decide; [|done].
    destruct (o !! toString r); [|done]. cbn -[backfill].
    by rewrite backfill_idempotent.
  - destruct (decide (k ∈ map toString rels)) as [Hin | Hnin].
    + by rewrite decide_True by (by right).
    + rewrite decide_False; [done|].
      intros [-> | H]%elem_of_cons; done.
Qed.





(** ** Only the recursion consumes fuel *)

Lemma settled_Ok {A} (a : A) : settled (Ok a).
Proof. done. Qed.

Lemma settled_bind {A B} (m : outcome A) (f : A → outcome B) :
  settled m → (∀ a, m = Ok a → settled (f a)) → settled (m ≫= f).
Proof. destruct m; try done. intros _ H. by apply H. Qed.

Lemma settled_fmap {A B} (g : A → B) (m : outcome A) :
  settled m → settled (g <$> m).
Proof. by destruct m. Qed.

Lemma settled_mapM {A B} (f : A → outcome B) (l : list A) :
  (∀ x, x ∈ l → settled (f x)) → settled (mapM f l).
Proof.
  induction l as [|x l IH]; intros H; [done|]. cbn.
  apply settled_bind; [apply H; by left|]. intros y _.
  apply settled_bind; [apply IH; intros z Hz; apply H; by right|]. done.
Qed.

Lemma settled_foldM {A S} (f : S → A → outcome S) (s : S) (l : list A) :
  (∀ s x, settled (f s x)) → settled (foldM f s l).
Proof.
  intros H. revert s. induction l as [|x l IH]; intros s; [done|]. cbn.
  apply settled_bind; [apply H|]. intros s' _. apply IH.
Qed.

Lemma settled_entriesM (f : string → value → outcome value)
    (o : gmap string value) :
  (∀ k v, settled (f k v)) → settled (entriesM f o).
Proof.
  intros H. unfold entriesM. apply settled_fmap, settled_mapM.
  intros [k v] _. apply settled_bind; [apply H | done].
Qed.

Lemma settled_get (v : value) (k : string) : settled (get v k).
Proof.
  destruct v as [| | | | s | xs |]; cbn; try done.
  - destruct (index_of_key _ _); [done|]. by destruct (String.eqb k "length").
  - destruct (index_of_key _ _); [done|]. by destruct (String.eqb k "length").
Qed.

Lemma settled_set_prop (v : value) (k : string) (x : value) :
  settled (set_prop v k x).
Proof.
  destruct v as [| | | | | xs |]; cbn; try done.
  by destruct (index_of_key _ _).
Qed.

Lemma settled_throwing {A} (r : option A) : settled (throwing r).
Proof. by destruct r. Qed.

Lemma settled_js_or (a : value) (b : outcome value) :
  settled b → settled (js_or a b).
Proof. unfold js_or. by destruct (truthy a). Qed.

Ltac settle_step :=
  first
    [ apply settled_Ok
    | discriminate
    | apply settled_get
    | apply settled_set_prop
    | apply settled_throwing
    | apply settled_js_or
    | apply settled_fmap
    | apply settled_bind; [|intros ? _]
    | apply settled_mapM; intros ? _
    | apply settled_entriesM; intros ? ?
    | apply settled_foldM; intros ? ?
    | match goal with
      | |- settled (if ?b then _ else _) => destruct b
      | |- settled (match ?x with _ => _ end) => destruct x
      | |- settled (let '(_, _) := ?x in _) => destruct x
      end ].

Lemma settled_extractResourceId (resource : value) :
  settled (extractResourceId resource).
Proof. unfold extractResourceId. repeat settle_step. Qed.

Lemma settled_fillId (item : value) : settled (fillId item).
Proof.
  unfold fillId. repeat first [apply settled_extractResourceId | settle_step].
Qed.

Lemma settled_ensureRelationshipIds (resource : value) (relationships : list value) :
  settled (ensureRelationshipIds resource relationships).
Proof.
  unfold ensureRelationshipIds, ensureRelationshipId.
  repeat first [apply settled_fillId | settle_step].
Qed.

Lemma settled_addJsonApiLinks (relationships : value) (baseUrl : string)
    (resourceId : value) :
  settled (addJsonApiLinks relationships baseUrl resourceId).
Proof. unfold addJsonApiLinks. repeat settle_step. Qed.

Lemma settled_mapTypes (data : value) (relationshipTypeMap : gmap string string) :
  settled (mapTypes data relationshipTypeMap).
Proof. unfold mapTypes, mapIncluded, mapRelationship. repeat settle_step. Qed.

Lemma settled_serializeResource (resource : value) (type : string)
    (relationships : list value) (hasRelationships : bool) :
  settled (serializeResource resource type relationships hasRelationships).
Proof.
  unfold serializeResource.
  repeat first [ apply settled_extractResourceId
               | apply settled_ensureRelationshipIds
               | settle_step ].
Qed.

Lemma settled_normalizeSingle (document : value) (type : string)
    (relationships : list value) (hasRelationships : bool) (url : string)
    (relationshipTypeMap : gmap string string) :
  settled (normalizeSingle document type relationships hasRelationships url
             relationshipTypeMap).
Proof.
  unfold normalizeSingle.
  repeat first [ apply settled_serializeResource
               | apply settled_addJsonApiLinks
               | apply settled_mapTypes
               | settle_step ].
Qed.

(** ** Lines 215-270: the recursion *)

Lemma mapM_ext_in {A B} (f g : A → outcome B) (l : list A) :
  (∀ x, x ∈ l → f x = g x) → mapM f l = mapM g l.
Proof.
  induction l as [|x l IH]; intros H; [done|]. cbn.
  rewrite (H x) by left. rewrite IH; [done|]. intros y Hy. apply H. by right.
Qed.

Lemma normalizeResourceRecursive_collection (fuel : nat) (document : value)
    (type : string) (relationships : list value) (hasRelationships : bool)
    (url : string) (relationshipTypeMap : gmap string string)
    (items : list value) :
  get document (pluralize type) = Ok (VArray items) →
  normalizeResourceRecursive (S fuel) document type
    relationships hasRelationships url relationshipTypeMap =
  (resources ← mapM (normalizeElement fuel type relationships hasRelationships
                       url relationshipTypeMap) items;
   aggregate document type hasRelationships resources).
Proof.
  intros Hget. cbn -[isCollectionResponse].
  rewrite isCollectionResponse_single, Hget. cbn. reflexivity.
Qed.

Lemma normalizeResourceRecursive_single (fuel : nat) (document : value)
    (type : string) (relationships : list value) (hasRelationships : bool)
    (url : string) (relationshipTypeMap : gmap string string) (v : value) :
  get document (pluralize type) = Ok v → truthy v = false →
  normalizeResourceRecursive (S fuel) document type
    relationships hasRelationships url relationshipTypeMap =
  normalizeSingle document type relationships hasRelationships url
    relationshipTypeMap.
Proof.
  intros Hget Hv. cbn -[isCollectionResponse normalizeSingle].
  rewrite isCollectionResponse_single, Hget. cbn -[normalizeSingle].
  by rewrite Hv.
Qed.

Lemma wrapped_single (type : string) (resource : value) :
  pluralize type ≠ type →
  get (VObject {[type := resource]}) (pluralize type) = Ok VUndefined.
Proof. intros Hne. cbn. by rewrite lookup_singleton_ne. Qed.

(** C2, as amended.  An empty collection of a type with relationships
    normalizes to [{ data: [], included: [] }]: the collection branch
    builds [included] with [flatMap] and never hands it to [mapTypes],
    whose empty-array case applies to a single resource only. *)
Theorem empty_collection_included_empty (fuel : nat) (document : value)
    (type : string) (relationships : list value) (url : string)
    (relationshipTypeMap : gmap string string) :
  get document (pluralize type) = Ok (VArray []) →
  normalizeResourceRecursive (S fuel) document type
    relationships true url relationshipTypeMap =
  Ok (document, VObject (<["included" := VArray []]> {["data" := VArray []]})).
Proof.
  intros Hget. rewrite (normalizeResourceRecursive_collection _ _ _ _ _ _ _ []) by done.
  cbn -[store_back]. by rewrite store_back_get.
Qed.

Lemma normalizeResourceRecursive_not_array (fuel : nat) (document : value)
    (type : string) (relationships : list value) (hasRelationships : bool)
    (url : string) (relationshipTypeMap : gmap string string) (v : value) :
  get document (pluralize type) = Ok v → truthy v = true → isArray v = false →
  normalizeResourceRecursive (S fuel) document type relationships
    hasRelationships url relationshipTypeMap = Throws.
Proof.
  intros Hget Hv Harr. cbn -[isCollectionResponse normalizeSingle].
  rewrite isCollectionResponse_single, Hget. cbn -[normalizeSingle].
  rewrite Hv. cbn. by destruct v.
Qed.

Lemma normalizeResourceRecursive_unreadable (fuel : nat) (document : value)
    (type : string) (relationships : list value) (hasRelationships : bool)
    (url : string) (relationshipTypeMap : gmap string string) :
  (∀ v, get document (pluralize type) ≠ Ok v) →
  normalizeResourceRecursive (S fuel) document type relationships
    hasRelationships url relationshipTypeMap = Throws.
Proof.
  intros Hget. cbn -[isCollectionResponse normalizeSingle].
  rewrite isCollectionResponse_single.
  destruct (get_cases document (pluralize type)) as [-> | [v Hv]]; [done|].
  by destruct (Hget v).
Qed.

(** The four ways a call of the recursive function can go. *)
Lemma normalizeResourceRecursive_cases (fuel : nat) (document : value)
    (type : string) (relationships : list value) (hasRelationships : bool)
    (url : string) (relationshipTypeMap : gmap string string) :
  let call := normalizeResourceRecursive (S fuel) document type relationships
                hasRelationships url relationshipTypeMap in
  (call = Throws ∧ ∀ fuel', normalizeResourceRecursive (S fuel') document type
      relationships hasRelationships url relationshipTypeMap = Throws) ∨
  (∃ v, get document (pluralize type) = Ok v ∧ truthy v = false ∧
     call = normalizeSingle document type relationships hasRelationships url
              relationshipTypeMap) ∨
  (∃ items, get document (pluralize type) = Ok (VArray items) ∧
     call = (resources ← mapM (normalizeElement fuel type relationships
                                 hasRelationships url relationshipTypeMap) items;
             aggregate document type hasRelationships resources)).
Proof.
  intros call. subst call.
  destruct (get document (pluralize type)) as [v| | |] eqn:Hget.
  - destruct (truthy v) eqn:Hv.
    + destruct (isArray v) eqn:Harr.
      * destruct v; try done. right; right. eexists. split; [done|].
        by apply normalizeResourceRecursive_collection.
      * left. split; [|intros fuel'];
          by eapply normalizeResourceRecursive_not_array.
    + right; left. exists v. split; [done|]. split; [done|].
      by eapply normalizeResourceRecursive_single.
  - left. split; [|intros fuel'];
      apply normalizeResourceRecursive_unreadable; intros v; by rewrite Hget.
  - destruct (get_cases document (pluralize type)) as [H | [v H]]; congruence.
  - destruct (get_cases document (pluralize type)) as [H | [v H]]; congruence.
Qed.

Lemma settled_bind_inv {A B} (m : outcome A) (f : A → outcome B) :
  settled (m ≫= f) → settled m.
Proof. by destruct m. Qed.

Lemma mapM_settled_ext {A B} (f g : A → outcome B) (l : list A) :
  settled (mapM f l) → (∀ x, x ∈ l → settled (f x) → g x = f x) →
  mapM g l = mapM f l.
Proof.
  induction l as [|x l IH]; intros Hs H; [done|]. cbn in *.
  pose proof (settled_bind_inv _ _ Hs) as Hx.
  rewrite (H x) by (done || by left).
  destruct (f x) as [y| | |]; try done. cbn in *.
  rewrite IH; [done| |].
  - by apply settled_bind_inv in Hs.
  - intros z Hz. apply H. by right.
Qed.

(** More fuel never changes a result that did not run out of fuel. *)
Lemma fuel_monotone (fuel : nat) (document : value) (type : string)
    (relationships : list value) (hasRelationships : bool) (url : string)
    (relationshipTypeMap : gmap string string) :
  settled (normalizeResourceRecursive fuel document type relationships
             hasRelationships url relationshipTypeMap) →
  normalizeResourceRecursive (S fuel) document type relationships
    hasRelationships url relationshipTypeMap =
  normalizeResourceRecursive fuel document type relationships
    hasRelationships url relationshipTypeMap.
Proof.
  revert document. induction fuel as [|fuel IH]; intros document Hs; [done|].
  destruct (normalizeResourceRecursive_cases (S fuel) document type relationships
              hasRelationships url relationshipTypeMap)
    as [[-> H] | [(v & Hget & Hv & ->) | (items & Hget & ->)]].
  - by rewrite H.
  - symmetry. by eapply normalizeResourceRecursive_single.
  - rewrite (normalizeResourceRecursive_collection fuel _ _ _ _ _ _ items) in * by done.
    apply settled_bind_inv in Hs.
    rewrite (mapM_settled_ext _ _ _ Hs); [done|].
    intros x _ Hx. unfold normalizeElement in *.
    apply settled_bind_inv in Hx. by rewrite IH.
Qed.

Lemma fuel_monotone_le (fuel fuel' : nat) (document : value) (type : string)
    (relationships : list value) (hasRelationships : bool) (url : string)
    (relationshipTypeMap : gmap string string) :
  (fuel ≤ fuel')%nat →
  settled (normalizeResourceRecursive fuel document type relationships
             hasRelationships url relationshipTypeMap) →
  normalizeResourceRecursive fuel' document type relationships
    hasRelationships url relationshipTypeMap =
  normalizeResourceRecursive fuel document type relationships
    hasRelationships url relationshipTypeMap.
Proof.
  intros Hle Hs. induction Hle as [|fuel' _ IH]; [done|].
  rewrite fuel_monotone; [done|]. by rewrite IH.
Qed.

Lemma normalizeElement_single (fuel : nat) (type : string)
    (relationships : list value) (hasRelationships : bool) (url : string)
    (relationshipTypeMap : gmap string string) (resource : value) :
  pluralize type ≠ type →
  normalizeElement (S fuel) type relationships hasRelationships url
    relationshipTypeMap resource =
  ('(single', r) ← normalizeSingle (VObject {[type := resource]}) type
      relationships hasRelationships url relationshipTypeMap;
   resource' ← get single' type;
   Ok (resource', r)).
Proof.
  intros Hne. unfold normalizeElement.
  by rewrite (normalizeResourceRecursive_single _ _ _ _ _ _ _ VUndefined)
    by (done || by apply wrapped_single).
Qed.

(** C9, as amended.  For a type whose plural key differs from its
    singular key, the payload that wraps one element of a collection
    is never classified as a collection: the call made for it is the
    single-resource case, whatever fuel is left.  So a fuel of two is
    always enough, and more fuel gives the same result. *)
Theorem recursion_depth_one (type : string) :
  pluralize type ≠ type →
  (∀ resource,
     isCollectionResponse [type] (VObject {[type := resource]}) = Ok false) ∧
  (∀ fuel resource relationships hasRelationships url relationshipTypeMap,
     normalizeResourceRecursive (S fuel) (VObject {[type := resource]}) type
       relationships hasRelationships url relationshipTypeMap =
     normalizeSingle (VObject {[type := resource]}) type relationships
       hasRelationships url relationshipTypeMap) ∧
  (∀ fuel document relationships hasRelationships url relationshipTypeMap,
     settled (normalizeResourceRecursive 2 document type relationships
                hasRelationships url relationshipTypeMap) ∧
     normalizeResourceRecursive (S (S fuel)) document type relationships
       hasRelationships url relationshipTypeMap =
     normalizeResourceRecursive 2 document type relationships
       hasRelationships url relationshipTypeMap).
Proof.
  intros Hne. split; [|split].
  - intros resource. rewrite isCollectionResponse_single.
    by rewrite wrapped_single.
  - intros.
    by rewrite (normalizeResourceRecursive_single _ _ _ _ _ _ _ VUndefined)
      by (done || by apply wrapped_single).
  - intros fuel document relationships hasRelationships url relationshipTypeMap.
    destruct (normalizeResourceRecursive_cases 1 document type relationships
                hasRelationships url relationshipTypeMap)
      as [[-> H] | [(v & Hget & Hv & ->) | (items & Hget & ->)]].
    + by rewrite H.
    + split; [apply settled_normalizeSingle|].
      by eapply normalizeResourceRecursive_single.
    + rewrite (normalizeResourceRecursive_collection (S fuel) _ _ _ _ _ _ items)
        by done.
      split.
      * apply settled_bind.
        { apply settled_mapM. intros x _. rewrite normalizeElement_single by done.
          repeat first [apply settled_normalizeSingle | settle_step]. }
        intros resources _. unfold aggregate, includedOf.
        repeat settle_step.
      * f_equal. apply mapM_ext_in. intros x _.
        by rewrite !normalizeElement_single.
Qed.

Lemma mapM_Ok_Forall2 {A B} (f : A → outcome B) (l : list A) (ys : list B) :
  mapM f l = Ok ys ↔ Forall2 (λ x y, f x = Ok y) l ys.
Proof.
  revert ys. induction l as [|x l IH]; intros ys; cbn.
  - split; [intros [= <-]; constructor | by inversion 1].
  - split.
    + intros H. apply bind_Ok_inv in H as (y & Hy & H).
      apply bind_Ok_inv in H as (ys' & Hys & [= <-]).
      constructor; [done | by apply IH].
    + inversion 1 as [|? y ? ys' Hy Hys]; subst.
      rewrite Hy. cbn. apply IH in Hys. by rewrite Hys.
Qed.








(** ** Lines 98-106: a failing schema lookup *)




Lemma serializeOptions_opt_out (relationships : list value) :
  serializeOptions relationships false = serializeOptions [] false.
Proof. reflexivity. Qed.




(** ** Lines 135-180: links and type rewriting *)

Lemma entriesM_pure (f : string → value → outcome value)
    (g : string → value → value) (o : gmap string value) :
  (∀ k v, o !! k = Some v → f k v = Ok (g k v)) →
  entriesM f o = Ok (map_imap (λ k v, Some (g k v)) o).
Proof.
  intros H. unfold entriesM.
  rewrite (mapM_pure _ (λ kv, (kv.1, g kv.1 kv.2))).
  2:{ intros [k v] Hin. apply elem_of_map_to_list in Hin. cbn.
      by rewrite (H k v Hin). }
  cbn. f_equal. apply map_eq. intros k. rewrite map_lookup_imap.
  change (map ?h ?l) with (h <$> l).
  destruct (o !! k) as [v|] eqn:Hk; cbn.
  - apply elem_of_list_to_map_1.
    + rewrite <- list_fmap_compose.
      replace (fst ∘ (λ kv : string * value, (kv.1, g kv.1 kv.2))) with
        (fst : string * value → string) by done.
      apply NoDup_fst_map_to_list.
    + apply list_elem_of_fmap. exists (k, v). split; [done|].
      by apply elem_of_map_to_list.
  - apply not_elem_of_list_to_map_1. rewrite <- list_fmap_compose.
    intros ([k' v] & -> & Hin)%list_elem_of_fmap.
    apply elem_of_map_to_list in Hin. cbn in Hk. congruence.
Qed.

Lemma addJsonApiLinks_object (rels : gmap string value) (baseUrl : string)
    (resourceId : value) :
  (∀ name relationship, rels !! name = Some relationship →
     isObject relationship = true) →
  addJsonApiLinks (VObject rels) baseUrl resourceId =
    Ok (VObject (map_imap (λ name relationship,
          Some (withLinks baseUrl resourceId name relationship)) rels)).
Proof.
  intros Hobj. unfold addJsonApiLinks. cbn -[linksFor].
  rewrite (entriesM_pure _ (withLinks baseUrl resourceId)); [done|].
  intros k v Hk. apply Hobj, isObject_spec in Hk as [rel ->]. done.
Qed.

Lemma retyped_outcome (target : string) (relData : value) :
  Forall (λ item, isObject item = true) (itemsOf relData) →
  match relData with
  | VArray dataItems =>
      VArray <$> mapM (λ item, set_prop item "type" (VString target)) dataItems
  | item => set_prop item "type" (VString target)
  end = Ok (retyped target relData).
Proof.
  intros Hobj.
  destruct relData as [| | | | | items | o];
    try (apply Forall_inv, isObject_spec in Hobj as [? ?]; discriminate);
    [|done].
  cbn in Hobj. rewrite (mapM_pure _ (retype target)); [done|].
  intros x Hx. rewrite Forall_forall in Hobj.
  by apply Hobj, isObject_spec in Hx as [o ->].
Qed.

Lemma retyped_stored (target : string) (rel : gmap string value) (relData : value) :
  truthy relData = true →
  Forall (λ item, isObject item = true) (itemsOf relData) →
  store_back (VObject rel) "data" (retyped target relData) =
    VObject (<["data" := retyped target relData]> rel).
Proof.
  intros Ht Hobj.
  destruct relData as [| | | | | items | o];
    try (apply Forall_inv, isObject_spec in Hobj as [? ?]; discriminate); done.
Qed.

Lemma mapRelationship_shaped (relationshipTypeMap : gmap string string)
    (relName : string) (relationship : value) :
  relationship_shaped relationship →
  mapRelationship relationshipTypeMap relName relationship =
    Ok (remapped relationshipTypeMap relName relationship).
Proof.
  intros (rel & -> & Hshape). unfold mapRelationship, remapped.
  destruct (relationshipTypeMap !! relName) as [target|]; [|done].
  destruct (truthy (VString target)); [|done].
  rewrite get_object. cbn -[field_of retyped].
  destruct (truthy (field_of rel "data")) eqn:Ht; [|done].
  cbn -[field_of retyped]. specialize (Hshape eq_refl).
  rewrite (retyped_outcome _ _ Hshape). cbn -[field_of retyped].
  by rewrite retyped_stored.
Qed.

Lemma mapTypes_relationships (rels : gmap string value)
    (relationshipTypeMap : gmap string string) :
  (∀ name relationship, rels !! name = Some relationship →
     relationship_shaped relationship) →
  let rels' := map_imap (λ name relationship,
                 Some (remapped relationshipTypeMap name relationship)) rels in
  mapTypes (VObject rels) relationshipTypeMap = Ok (VObject rels', VObject rels').
Proof.
  intros Hshape. unfold mapTypes. cbn -[mapRelationship].
  rewrite (entriesM_pure _ (remapped relationshipTypeMap)); [done|].
  intros k v Hk. apply mapRelationship_shaped. by eapply Hshape.
Qed.







(** * Further properties of the normalizer *)

(** ** Reading a property *)

Lemma get_throws_iff (v : value) (k : string) :
  get v k = Throws ↔ v = VNull ∨ v = VUndefined.
Proof.
  split; [|by intros [-> | ->]].
  destruct v as [| | | | s | xs |]; cbn; try done; eauto.
  - destruct (index_of_key _ _); [done|]. by destruct (String.eqb k "length").
  - destruct (index_of_key _ _); [done|]. by destruct (String.eqb k "length").
Qed.

Lemma get_defined (v : value) (k : string) :
  v ≠ VNull → v ≠ VUndefined → ∃ x, get v k = Ok x.
Proof.
  intros Hnull Hundef. destruct (get_cases v k) as [H | H]; [|done].
  apply get_throws_iff in H as [-> | ->]; done.
Qed.

(** ** Lines 40-43: where the identifier resolver throws *)

Lemma extractResourceId_missing (resource : value) :
  resource = VNull ∨ resource = VUndefined →
  extractResourceId resource = Throws.
Proof. by intros [-> | ->]. Qed.

(** X1.  The identifier resolver throws exactly on [null] and
    [undefined]; on every other value it returns.  An object that has
    none of [id], [slug], [username], [name] resolves to [undefined]. *)
Theorem extractResourceId_throws_iff :
  (∀ resource,
     extractResourceId resource = Throws ↔
     resource = VNull ∨ resource = VUndefined) ∧
  (∀ resource, resource ≠ VNull → resource ≠ VUndefined →
     ∃ id, extractResourceId resource = Ok id) ∧
  (∀ o : gmap string value,
     o !! "id" = None → o !! "slug" = None → o !! "username" = None →
     o !! "name" = None →
     extractResourceId (VObject o) = Ok VUndefined).
Proof.
  assert (∀ resource, resource ≠ VNull → resource ≠ VUndefined →
            ∃ id, extractResourceId resource = Ok id) as Htotal.
  { intros resource Hnull Hundef. unfold extractResourceId, js_or.
    destruct (isPrimitive resource); [eauto|].
    destruct (get_defined resource "id" Hnull Hundef) as [id ->].
    destruct (get_defined resource "slug" Hnull Hundef) as [slug ->].
    destruct (get_defined resource "username" Hnull Hundef) as [username ->].
    destruct (get_defined resource "name" Hnull Hundef) as [name ->].
    cbn. destruct (truthy id); [eauto|]. destruct (truthy slug); [eauto|].
    destruct (truthy username); eauto. }
  split; [|split; [done|]].
  - intros resource. split; [|apply extractResourceId_missing].
    intros H. destruct resource; eauto;
      edestruct Htotal as [id Hid]; try (rewrite Hid in H; discriminate); done.
  - intros o Hid Hslug Husername Hname. rewrite extractResourceId_object.
    unfold field_of. by rewrite Hid, Hslug, Husername, Hname.
Qed.

(** ** Lines 17-21: type detection *)







(** ** Lines 281-302: payloads that cannot be normalized *)




(** ** Lines 98-106: the relationship query on a well-formed schema *)

Lemma filterM_filter {A} (f : A → outcome bool) (g : A → bool) (l : list A) :
  (∀ x, x ∈ l → f x = Ok (g x)) → filterM f l = Ok (List.filter g l).
Proof.
  induction l as [|x l IH]; intros H; [done|]. cbn.
  rewrite (H x) by left. cbn. rewrite IH by (intros y Hy; apply H; by right).
  cbn. by destruct (g x).
Qed.

(** X4.  When every entry the schema yields for a type is an object,
    the relationship query returns the [name] of each field whose [kind]
    is [belongsTo] or [hasMany], in declaration order, and nothing else;
    a type that declares no such field has no relationships. *)
Theorem getSchemaRelationships_declared (sc : schema) (type : string)
    (fields : list value) :
  schema_fields sc type = Some fields →
  Forall (λ f, isObject f = true) fields →
  let related f := includes ["belongsTo"; "hasMany"] (prop_of f "kind") in
  getSchemaRelationships (Some sc) type =
    map (λ f, prop_of f "name") (List.filter related fields) ∧
  (Forall (λ f, related f = false) fields →
   getSchemaRelationships (Some sc) type = []).
Proof.
  intros Hfields Hobj related.
  assert (getSchemaRelationships (Some sc) type =
            map (λ f, prop_of f "name") (List.filter related fields)) as Heq.
  { unfold getSchemaRelationships. rewrite Hfields.
    rewrite (filterM_filter _ related).
    2:{ intros f Hf. rewrite Forall_forall in Hobj.
        by apply Hobj, isObject_spec in Hf as [o ->]. }
    cbn -[includes]. rewrite (mapM_pure _ (λ f, prop_of f "name")); [done|].
    intros f Hf. apply list_elem_of_In, filter_In in Hf as [Hf _].
    rewrite Forall_forall in Hobj.
    by apply list_elem_of_In, Hobj, isObject_spec in Hf as [o ->]. }
  split; [done|]. intros Hnone. rewrite Heq.
  replace (List.filter related fields) with ([] : list value); [done|].
  symmetry. clear Heq Hfields Hobj.
  induction Hnone as [|f fs Hf _ IH]; [done|]. cbn -[includes].
  fold (related f). by rewrite Hf.
Qed.

(** ** Lines 63-85: the property name and the identifier of a coerced
    primitive *)

Lemma findM_Some {A} (f : A → outcome bool) (l : list A) (x : A) :
  findM f l = Ok (Some x) → f x = Ok true.
Proof.
  induction l as [|y l IH]; [done|]. cbn.
  destruct (f y) as [[]| | |] eqn:Hy; cbn; try done.
  by intros [= <-].
Qed.

Lemma inferPropertyName_preferred (sc : option schema) (type : string) :
  ∃ name, inferPropertyName sc type = VString name ∧ name ∈ preferredNames.
Proof.
  clear pluralize serialize.
  assert ("value" ∈ preferredNames) as Hvalue
    by (unfold preferredNames; apply list_elem_of_In; cbn; tauto).
  unfold inferPropertyName.
  destruct sc as [sc|]; [|eauto].
  destruct (schema_fields sc type) as [fields|]; [|eauto].
  destruct (findM isNameField fields) as [[nameField|]| | |] eqn:Hfind; eauto.
  apply findM_Some in Hfind. unfold isNameField in Hfind.
  destruct (truthy nameField); [|eauto].
  destruct (get nameField "kind") as [kind| | |]; try done. cbn in Hfind.
  destruct (strict_eq_string kind "field"); [|done].
  destruct (get nameField "name") as [name| | |]; try done.
  injection Hfind as Hin. destruct name; try done.
  cbn in Hin. apply bool_decide_eq_true in Hin. eauto.
Qed.

Lemma preferred_not_reserved (name : string) :
  name ∈ preferredNames →
  name ≠ "id" ∧ name ≠ "slug" ∧ name ≠ "username".
Proof.
  unfold preferredNames. intros Hin.
  repeat (apply elem_of_cons in Hin as [-> | Hin]; [done|]).
  by apply elem_of_nil in Hin.
Qed.

(** X5.  The property name chosen for a coerced primitive is always one
    of [name], [title], [label], [text], [value], whatever the schema
    holds; in particular it is never [id], so the coercion never
    overwrites the identifier it has just written. *)
Theorem inferPropertyName_candidate (sc : option schema) (type : string) :
  ∃ name,
    inferPropertyName sc type = VString name ∧
    name ∈ ["name"; "title"; "label"; "text"; "value"] ∧
    ∀ item, get (coerce (VString name) item) "id" = Ok (VString (toString item)).
Proof.
  destruct (inferPropertyName_preferred sc type) as (name & Hname & Hin).
  exists name. split; [done|]. split; [done|]. intros item.
  destruct (preferred_not_reserved _ Hin) as (Hid & _).
  cbn. by rewrite lookup_insert_ne, lookup_singleton_eq.
Qed.

Lemma coerced_identifier (sc : option schema) (type : string) (item : value) :
  toString item ≠ "" →
  let element := coerce (inferPropertyName sc type) item in
  extractResourceId element = Ok (VString (toString item)) ∧
  VObject (<["id" := VString (toString item)]> (spread element)) = element.
Proof.
  destruct (inferPropertyName_preferred sc type) as (name & -> & Hin).
  destruct (preferred_not_reserved _ Hin) as (Hid & Hslug & Husername).
  intros Hne element. subst element. unfold coerce. cbn [toString].
  rewrite extractResourceId_object.
  assert (field_of (<[name := item]> {["id" := VString (toString item)]}) "id"
          = VString (toString item)) as ->.
  { unfold field_of. by rewrite lookup_insert_ne, lookup_singleton_eq. }
  cbn. rewrite (proj2 (String.eqb_neq _ _) Hne). cbn.
  split; [done|]. f_equal. apply insert_id.
  by rewrite lookup_insert_ne, lookup_singleton_eq.
Qed.

(** X6.  Coercion and identifier resolution compose: a string or a
    number whose string form is not empty, once coerced, resolves to
    that string form, and adding the resolved identifier to the coerced
    object changes nothing.  The empty string is the exception: coerced,
    it resolves to a falsy identifier. *)
Theorem coerced_primitive_identifier (sc : option schema) (type : string)
    (item : value) :
  let element := coerce (inferPropertyName sc type) item in
  (toString item ≠ "" →
   extractResourceId element = Ok (VString (toString item)) ∧
   VObject (<["id" := VString (toString item)]> (spread element)) = element) ∧
  (item = VString "" →
   ∃ id, extractResourceId element = Ok id ∧ truthy id = false).
Proof.
  intros element. split; [apply coerced_identifier|]. subst element.
  destruct (inferPropertyName_preferred sc type) as (name & -> & Hin).
  destruct (preferred_not_reserved _ Hin) as (Hid & Hslug & Husername).
  intros ->. unfold coerce. cbn [toString].
  rewrite extractResourceId_object. rewrite !field_of_insert_ne by done.
  eexists. split; [done|]. unfold field_of.
  rewrite lookup_singleton_eq, !lookup_singleton_ne by done. cbn.
  destruct (decide (name = "name")) as [-> | Hne].
  + by rewrite lookup_insert_eq.
  + by rewrite lookup_insert_ne, lookup_singleton_ne.
Qed.

(** ** Lines 54-89: what the coercion leaves behind *)


(** ** Lines 114-126: what the back-fill leaves behind *)

Lemma backfilled_dom (relationships : list value) (o : gmap string value) :
  dom (backfilled relationships o) = dom o.
Proof.
  unfold backfilled. revert o.
  induction relationships as [|r rels IH]; intros o; [done|].
  cbn -[toString backfill]. by rewrite IH, dom_alter_L.
Qed.

Lemma fill_filled (x : value) (item : gmap string value) :
  fill x = VObject item →
  truthy (field_of item "id") = false →
  truthy (field_of item "slug") = false ∧
  truthy (field_of item "username") = false ∧
  truthy (field_of item "name") = false.
Proof.
  destruct x as [| | | | | |o]; try done. cbn -[field_of].
  destruct (truthy (field_of o "id")) eqn:Hid.
  { intros [= <-]. by rewrite Hid. }
  intros [= <-]. rewrite field_of_insert_eq, !field_of_insert_ne by done.
  destruct (truthy (field_of o "slug")) eqn:Hslug; [by rewrite Hslug|].
  destruct (truthy (field_of o "username")) eqn:Husername; [by rewrite Husername|].
  done.
Qed.

Lemma backfill_items (v : value) :
  isArray (backfill v) = isArray v ∧
  itemsOf (backfill v) = map fill (itemsOf v).
Proof.
  destruct v as [| | | | | items | o]; try done.
  cbn -[field_of]. by destruct (truthy (field_of o "id")).
Qed.

(** X8.  On a resource object the back-fill never throws.  It keeps the
    set of keys and leaves every key that is not a relationship name as
    it was.  Under a relationship name an array stays an array of the
    same length and a single value stays single.  Afterwards, an object
    linked under a relationship name has a truthy [id], unless none of
    its [slug], [username], [name] is truthy. *)
Theorem ensureRelationshipIds_postcondition (o : gmap string value)
    (relationships : list value) :
  ∃ o' : gmap string value,
    ensureRelationshipIds (VObject o) relationships = Ok (VObject o') ∧
    dom o' = dom o ∧
    (∀ k, k ∉ map toString relationships → o' !! k = o !! k) ∧
    (∀ relName, relName ∈ relationships →
       isArray (field_of o' (toString relName)) =
         isArray (field_of o (toString relName)) ∧
       length (itemsOf (field_of o' (toString relName))) =
         length (itemsOf (field_of o (toString relName)))) ∧
    (∀ relName item, relName ∈ relationships →
       VObject item ∈ itemsOf (field_of o' (toString relName)) →
       truthy (field_of item "id") = false →
       truthy (field_of item "slug") = false ∧
       truthy (field_of item "username") = false ∧
       truthy (field_of item "name") = false).
Proof.
  exists (backfilled relationships o).
  assert (∀ relName, relName ∈ relationships →
            field_of (backfilled relationships o) (toString relName) =
              backfill (field_of o (toString relName))) as Hfield.
  { intros relName Hin. unfold field_of. rewrite backfilled_lookup.
    rewrite decide_True.
    2:{ apply list_elem_of_In, in_map, list_elem_of_In, Hin. }
    by destruct (o !! toString relName). }
  split; [apply ensureRelationshipIds_object|].
  split; [apply backfilled_dom|]. split; [|split].
  - intros k Hk. rewrite backfilled_lookup. by rewrite decide_False.
  - intros relName Hin. rewrite (Hfield _ Hin).
    destruct (backfill_items (field_of o (toString relName))) as [-> ->].
    by rewrite length_map.
  - intros relName item Hin Hitem. rewrite (Hfield _ Hin) in Hitem.
    rewrite (proj2 (backfill_items _)) in Hitem.
    apply list_elem_of_In, in_map_iff in Hitem as (x & Hx & _).
    by apply (fill_filled x).
Qed.

(** ** Lines 135-180: what links and type rewriting leave alone *)

Lemma dom_imap_total (g : string → value → value) (m : gmap string value) :
  dom (map_imap (λ k v, Some (g k v)) m) = dom m.
Proof.
  apply set_eq. intros k. rewrite !elem_of_dom, map_lookup_imap.
  destruct (m !! k); cbn; split; intros [? ?]; eauto; done.
Qed.

(** X9.  [addJsonApiLinks] returns at once on a falsy argument.  On an
    object whose entries are objects it never throws, keeps the set of
    relationship names, and gives each relationship a [links] object
    made of the base url, the resource id and the relationship name,
    leaving its other properties as they were. *)
Theorem addJsonApiLinks_effect (baseUrl : string) (resourceId : value) :
  (∀ relationships, truthy relationships = false →
     addJsonApiLinks relationships baseUrl resourceId = Ok relationships) ∧
  (∀ rels : gmap string value,
     (∀ name relationship, rels !! name = Some relationship →
        isObject relationship = true) →
     ∃ rels' : gmap string value,
       addJsonApiLinks (VObject rels) baseUrl resourceId = Ok (VObject rels') ∧
       dom rels' = dom rels ∧
       ∀ name rel, rels !! name = Some (VObject rel) →
         ∃ rel' : gmap string value,
           rels' !! name = Some (VObject rel') ∧
           (∀ k, k ≠ "links" → rel' !! k = rel !! k) ∧
           let prefix := baseUrl +:+ "/" +:+ toString resourceId +:+ "/" in
           rel' !! "links" =
             Some (VObject (<["self" := VString (prefix +:+ "relationships/" +:+ name)]>
                              {["related" := VString (prefix +:+ name)]}))).
Proof.
  split.
  - intros relationships Hfalsy. unfold addJsonApiLinks. by rewrite Hfalsy.
  - intros rels Hobj. eexists. split; [by apply addJsonApiLinks_object|].
    split; [apply dom_imap_total|].
    intros name rel Hrel. rewrite map_lookup_imap, Hrel. cbn -[linksFor].
    eexists. split; [done|]. split.
    + intros k Hk. by rewrite lookup_insert_ne.
    + by rewrite lookup_insert_eq.
Qed.

Lemma Forall2_map_r {A B} (P : A → B → Prop) (f : A → B) (l : list A) :
  (∀ x, x ∈ l → P x (f x)) → Forall2 P l (map f l).
Proof.
  induction l as [|x l IH]; intros H; constructor.
  - apply H. by left.
  - apply IH. intros y Hy. apply H. by right.
Qed.

Lemma Forall2_diag {A} (P : A → A → Prop) (l : list A) :
  (∀ x, P x x) → Forall2 P l l.
Proof. intros H. induction l; by constructor. Qed.

Lemma retyped_items (target : string) (relData : value) :
  isArray (retyped target relData) = isArray relData ∧
  itemsOf (retyped target relData) = map (retype target) (itemsOf relData).
Proof. by destruct relData. Qed.

Lemma retype_frame (target : string) (item : value) (k : string) :
  k ≠ "type" → get (retype target item) k = get item k.
Proof.
  intros Hk. destruct item; try done. cbn. by rewrite lookup_insert_ne.
Qed.

(** X10.  On a relationships object of the shape the serializer
    documents, [mapTypes] never throws and changes nothing but type
    labels: the set of relationship names is kept, every property of a
    relationship other than [data] is kept, a single reference stays
    single and an array keeps its length, and every property of a
    reference other than [type], its [id] included, is kept. *)
Theorem mapTypes_relationships_frame (rels : gmap string value)
    (relationshipTypeMap : gmap string string) :
  (∀ name relationship, rels !! name = Some relationship →
     relationship_shaped relationship) →
  ∃ rels' : gmap string value,
    mapTypes (VObject rels) relationshipTypeMap =
      Ok (VObject rels', VObject rels') ∧
    dom rels' = dom rels ∧
    ∀ name rel, rels !! name = Some (VObject rel) →
      ∃ rel' : gmap string value,
        rels' !! name = Some (VObject rel') ∧
        (∀ k, k ≠ "data" → rel' !! k = rel !! k) ∧
        isArray (field_of rel' "data") = isArray (field_of rel "data") ∧
        Forall2 (λ item item', ∀ k, k ≠ "type" → get item' k = get item k)
          (itemsOf (field_of rel "data")) (itemsOf (field_of rel' "data")).
Proof.
  intros Hshape. eexists. split; [by apply mapTypes_relationships|].
  split; [apply dom_imap_total|].
  intros name rel Hrel. rewrite map_lookup_imap, Hrel. cbn -[field_of retyped].
  assert (∃ rel' : gmap string value, VObject rel' = VObject rel ∧
            (∀ k, k ≠ "data" → rel' !! k = rel !! k) ∧
            isArray (field_of rel' "data") = isArray (field_of rel "data") ∧
            Forall2 (λ item item', ∀ k, k ≠ "type" → get item' k = get item k)
              (itemsOf (field_of rel "data")) (itemsOf (field_of rel' "data")))
    as (rel0 & Hsame & Hrest).
  { exists rel. repeat split; try done. by apply Forall2_diag. }
  unfold remapped.
  destruct (relationshipTypeMap !! name) as [target|];
    [|exists rel0; by rewrite Hsame].
  destruct (truthy (VString target) && truthy (field_of rel "data"));
    [|exists rel0; by rewrite Hsame].
  eexists. split; [done|]. split; [|split].
  - intros k Hk. by rewrite lookup_insert_ne.
  - rewrite field_of_insert_eq. apply retyped_items.
  - rewrite field_of_insert_eq, (proj2 (retyped_items _ _)).
    apply Forall2_map_r. intros x _ k Hk. by apply retype_frame.
Qed.


(** ** Lines 215-270: a type without relationships *)

Lemma normalizeSingle_plain (document : value) (type : string)
    (relationships : list value) (url : string)
    (relationshipTypeMap : gmap string string) (resource : value) :
  get document type = Ok resource →
  normalizeSingle document type relationships false url relationshipTypeMap =
    (id ← extractResourceId resource;
     result ← throwing
       (serialize (VObject (<["id" := id]> (spread resource))) type
          (serializeOptions [] false));
     Ok (document, result)).
Proof.
  intros Hget. unfold normalizeSingle, serializeResource. rewrite Hget.
  cbn -[extractResourceId serializeOptions].
  destruct (extractResourceId resource) as [id| | |]; try done.
  cbn -[serializeOptions]. rewrite serializeOptions_opt_out.
  destruct (serialize _ _ _) as [result|]; [|done].
  cbn. by rewrite store_back_get.
Qed.

Lemma normalizeSingle_plain_state (document : value) (type : string)
    (relationships : list value) (url : string)
    (relationshipTypeMap : gmap string string) (document' result : value) :
  normalizeSingle document type relationships false url relationshipTypeMap =
    Ok (document', result) →
  document' = document.
Proof.
  intros H. destruct (get_cases document type) as [Hget | [resource Hget]].
  { unfold normalizeSingle in H. by rewrite Hget in H. }
  rewrite (normalizeSingle_plain _ _ _ _ _ _ Hget) in H.
  inv_binds H. by injection H as <- _.
Qed.

Lemma mapM_length {A B} (f : A → outcome B) (l : list A) (ys : list B) :
  mapM f l = Ok ys → length ys = length l.
Proof.
  intros H. apply mapM_Ok_Forall2, Forall2_length in H. done.
Qed.

Lemma normalizeResourceRecursive_plain_state (fuel : nat) (document : value)
    (type : string) (relationships : list value) (url : string)
    (relationshipTypeMap : gmap string string) (document' result : value) :
  normalizeResourceRecursive fuel document type relationships false url
    relationshipTypeMap = Ok (document', result) →
  document' = document.
Proof.
  revert document document' result.
  induction fuel as [|fuel IH]; intros document document' result; [done|].
  destruct (normalizeResourceRecursive_cases fuel document type relationships
              false url relationshipTypeMap)
    as [[-> H] | [(v & Hget & Hv & ->) | (items & Hget & ->)]]; [done| |].
  - apply normalizeSingle_plain_state.
  - intros H. apply bind_Ok_inv in H as (resources & Hmap & H).
    unfold aggregate in H. apply bind_Ok_inv in H as (datas & _ & H).
    injection H as <- _.
    assert (resources.*1 = items) as ->;
      [|by apply (store_back_get document (pluralize type) (VArray items))].
    apply mapM_Ok_Forall2 in Hmap. clear Hget.
    induction Hmap as [|x [x' r] xs rs Hx _ IHrs]; [done|].
    cbn. f_equal; [|done]. unfold normalizeElement in Hx.
    apply bind_Ok_inv in Hx as ([single' r'] & Hrec & Hx).
    apply IH in Hrec as ->. cbn in Hx. rewrite lookup_singleton_eq in Hx.
    by injection Hx as <- _.
Qed.

Lemma normalizeResourceRecursive_plain_ext (fuel : nat) (document : value)
    (type : string) (relationships relationships' : list value)
    (url url' : string) (relationshipTypeMap relationshipTypeMap' : gmap string string) :
  normalizeResourceRecursive fuel document type relationships false url
    relationshipTypeMap =
  normalizeResourceRecursive fuel document type relationships' false url'
    relationshipTypeMap'.
Proof.
  revert document. induction fuel as [|fuel IH]; intros document; [done|].
  destruct (get_cases document (pluralize type)) as [Hget | [v Hget]].
  { rewrite !normalizeResourceRecursive_unreadable; [done| |];
      intros v; by rewrite Hget. }
  destruct (truthy v) eqn:Hv.
  - destruct (isArray v) eqn:Harr.
    + destruct v as [| | | | | items |]; try done.
      rewrite !(normalizeResourceRecursive_collection _ _ _ _ _ _ _ items) by done.
      f_equal. apply mapM_ext_in. intros x _. unfold normalizeElement.
      by rewrite IH.
    + by rewrite !(normalizeResourceRecursive_not_array _ _ _ _ _ _ _ v).
  - by rewrite !(normalizeResourceRecursive_single _ _ _ _ _ _ _ v).
Qed.

(** X12.  For a type without relationships the normalization leaves the
    payload it is given as it is (the id back-fill is the only mutation
    the recursion makes, and it is not run), and its outcome does not
    depend on the url, on the relationship type map or on the list of
    relationship names. *)
Theorem normalizeResourceRecursive_plain (fuel : nat) (document : value)
    (type : string) (relationships : list value) (url : string)
    (relationshipTypeMap : gmap string string) :
  (∀ document' result,
     normalizeResourceRecursive fuel document type relationships false url
       relationshipTypeMap = Ok (document', result) →
     document' = document) ∧
  (∀ relationships' url' relationshipTypeMap',
     normalizeResourceRecursive fuel document type relationships' false url'
       relationshipTypeMap' =
     normalizeResourceRecursive fuel document type relationships false url
       relationshipTypeMap).
Proof.
  split.
  - apply normalizeResourceRecursive_plain_state.
  - intros. apply normalizeResourceRecursive_plain_ext.
Qed.

(** X13.  A result of the collection branch has one entry of [data] per
    element of the payload array and no key but [data] and, with
    relationships, [included]; with relationships [included] is always
    an array, also when no element has included resources. *)
Theorem collection_result_shape (fuel : nat) (document : value)
    (type : string) (relationships : list value) (hasRelationships : bool)
    (url : string) (relationshipTypeMap : gmap string string)
    (items : list value) (document' result : value) :
  get document (pluralize type) = Ok (VArray items) →
  normalizeResourceRecursive (S fuel) document type relationships
    hasRelationships url relationshipTypeMap = Ok (document', result) →
  ∃ datas,
    length datas = length items ∧
    if hasRelationships
    then ∃ included,
      result = VObject (<["included" := VArray included]> {["data" := VArray datas]})
    else result = VObject {["data" := VArray datas]}.
Proof.
  intros Hget H.
  rewrite (normalizeResourceRecursive_collection _ _ _ _ _ _ _ items) in H by done.
  apply bind_Ok_inv in H as (resources & Hmap & H). unfold aggregate in H.
  apply bind_Ok_inv in H as (datas & Hdatas & H).
  exists datas. split.
  { apply mapM_length in Hmap, Hdatas.
    by rewrite Hdatas, length_fmap, Hmap. }
  destruct hasRelationships.
  - apply bind_Ok_inv in H as (includeds & _ & [= _ <-]). eauto.
  - by injection H as _ <-.
Qed.

(** ** Lines 281-302: the entry point on a type without relationships *)

Lemma hasRelationships_none (relationships : list value) :
  relationships = [] → bool_decide (0 < length relationships)%nat = false.
Proof. by intros ->. Qed.

(** X14.  For a payload object that holds one resource under the key of
    its detected type and nothing truthy under the plural key, and a
    type whose relationship query is empty, the entry point returns
    what the serializer returns for the resource with its resolved [id]
    added, asked for no relationships and no included resources; it
    throws if the serializer or the identifier resolver throws, and it
    leaves the payload as it was. *)
Theorem normalizeResource_singleton (fuel : nat) (o : gmap string value)
    (req : request) (relationshipTypeMap : gmap string string)
    (type : string) (resource : value) :
  detectResourceType (schema_types (request_schema req)) (VObject o) = Ok type →
  truthy (field_of o (pluralize type)) = false →
  o !! type = Some resource →
  getSchemaRelationships (Some (request_schema req)) type = [] →
  normalizeResource (S fuel) (VObject o) req relationshipTypeMap =
    (id ← extractResourceId resource;
     result ← throwing
       (serialize (VObject (<["id" := id]> (spread resource))) type
          (serializeOptions [] false));
     Ok (VObject o, result)).
Proof.
  intros Hdetect Hplural Hkey Hrels. unfold normalizeResource.
  rewrite Hdetect.
  cbn -[normalizeResourceRecursive normalizeResourceData getSchemaRelationships].
  rewrite (normalizeResourceData_untouched _ _ _ (field_of o (pluralize type)));
    [|done|by intros items Heq; rewrite Heq in Hplural].
  cbn -[normalizeResourceRecursive getSchemaRelationships].
  rewrite Hrels, (hasRelationships_none []) by done.
  rewrite (normalizeResourceRecursive_single _ _ _ _ _ _ _
             (field_of o (pluralize type))) by done.
  apply normalizeSingle_plain. cbn. by rewrite Hkey.
Qed.

Lemma mapM_fmap {A B C} (f : B → outcome C) (g : A → B) (l : list A) :
  mapM f (map g l) = mapM (λ x, f (g x)) l.
Proof. induction l as [|x l IH]; [done|]. cbn. by rewrite IH. Qed.

Lemma mapM_paired {A B C} (f : A → outcome C) (g : A → B) (l : list A) :
  mapM (λ x, r ← f x; Ok (g x, r)) l =
    (rs ← mapM f l; Ok (zip (map g l) rs)).
Proof.
  induction l as [|x l IH]; [done|]. cbn. rewrite IH.
  destruct (f x) as [r| | |]; try done. cbn.
  by destruct (mapM f l).
Qed.

Lemma normalizeElement_coerced (fuel : nat) (type : string) (url : string)
    (relationshipTypeMap : gmap string string) (sc : option schema)
    (item : value) :
  pluralize type ≠ type → toString item ≠ "" →
  let element := coerce (inferPropertyName sc type) item in
  normalizeElement (S fuel) type [] false url relationshipTypeMap element =
    (r ← throwing (serialize element type (serializeOptions [] false));
     Ok (element, r)).
Proof.
  intros Hne Hitem element. rewrite normalizeElement_single by done.
  rewrite (normalizeSingle_plain _ _ _ _ _ element)
    by (cbn; by rewrite lookup_singleton_eq).
  destruct (coerced_identifier sc type item Hitem) as [Hid Hsame].
  fold element in Hid, Hsame. rewrite Hid.
  cbn -[serializeOptions spread]. rewrite Hsame.
  destruct (serialize element type (serializeOptions [] false)); [|done].
  cbn. by rewrite lookup_singleton_eq.
Qed.

(** X15.  For a payload object whose plural key holds a non-empty array
    of strings and numbers, none of which has an empty string form, a
    type whose relationship query is empty and whose plural differs
    from its singular, the entry point hands each element to the
    serializer as [{ id: String(element), [propertyName]: element }], in
    order, and returns the array of the [data] of the documents it gets
    back; the payload is left holding the coerced array. *)
Theorem normalizeResource_primitive_collection (fuel : nat)
    (o : gmap string value) (req : request)
    (relationshipTypeMap : gmap string string) (type : string)
    (items : list value) :
  detectResourceType (schema_types (request_schema req)) (VObject o) = Ok type →
  o !! pluralize type = Some (VArray items) →
  items ≠ [] →
  Forall (λ item, isPrimitive item = true ∧ toString item ≠ "") items →
  getSchemaRelationships (Some (request_schema req)) type = [] →
  pluralize type ≠ type →
  let element := coerce (inferPropertyName (Some (request_schema req)) type) in
  normalizeResource (S (S fuel)) (VObject o) req relationshipTypeMap =
    (fragments ← mapM (λ item,
        throwing (serialize (element item) type (serializeOptions [] false))) items;
     datas ← mapM (λ r, get r "data") fragments;
     Ok (VObject (<[pluralize type := VArray (map element items)]> o),
         VObject {["data" := VArray datas]})).
Proof.
  intros Hdetect Hkey Hne Hprim Hrels Hplural element.
  assert (existsb isPrimitive items = true) as Hsome.
  { destruct items as [|x xs]; [done|]. apply Forall_inv in Hprim as [Hx _].
    cbn. by rewrite Hx. }
  unfold normalizeResource. rewrite Hdetect.
  cbn -[normalizeResourceRecursive normalizeResourceData getSchemaRelationships].
  rewrite (normalizeResourceData_coerces _ _ _ items);
    [|cbn; by rewrite Hkey|done].
  cbn -[normalizeResourceRecursive getSchemaRelationships]. fold element.
  rewrite Hrels, (hasRelationships_none []) by done.
  rewrite (normalizeResourceRecursive_collection _ _ _ _ _ _ _ (map element items))
    by (cbn; by rewrite lookup_insert_eq).
  rewrite mapM_fmap.
  rewrite (mapM_ext_in _ (λ item,
             r ← throwing (serialize (element item) type (serializeOptions [] false));
             Ok (element item, r))).
  2:{ intros item Hitem. rewrite Forall_forall in Hprim.
      destruct (Hprim _ Hitem) as [_ Hstr].
      by apply normalizeElement_coerced. }
  rewrite mapM_paired.
  destruct (mapM _ items) as [fragments| | |] eqn:Hfragments; try done.
  cbn -[store_back]. unfold aggregate.
  apply mapM_length in Hfragments.
  rewrite snd_zip, fst_zip by (rewrite length_map; lia).
  destruct (mapM (λ r, get r "data") fragments) as [datas| | |]; try done.
  cbn. by rewrite insert_insert_eq.
Qed.

(** ** Lines 254-269: the single resource with relationships *)

(** X16.  With relationships, what the normalization of a single
    resource object does to the payload is the id back-fill and nothing
    else: the payload it leaves holds, under the type key, the resource
    as [ensureRelationshipIds] leaves it, and every other key as it
    was. *)
Theorem normalizeSingle_payload (o : gmap string value) (type : string)
    (relationships : list value) (url : string)
    (relationshipTypeMap : gmap string string) (resource : gmap string value)
    (document' result : value) :
  o !! type = Some (VObject resource) →
  normalizeSingle (VObject o) type relationships true url relationshipTypeMap =
    Ok (document', result) →
  ∃ resource' : gmap string value,
    ensureRelationshipIds (VObject resource) relationships = Ok (VObject resource') ∧
    document' = VObject (<[type := VObject resource']> o).
Proof.
  intros Hkey H. unfold normalizeSingle, serializeResource in H.
  cbn -[extractResourceId ensureRelationshipIds addJsonApiLinks mapTypes
        serializeOptions store_back] in H.
  rewrite Hkey in H.
  cbn -[extractResourceId ensureRelationshipIds addJsonApiLinks mapTypes
        serializeOptions store_back] in H.
  rewrite ensureRelationshipIds_object in H.
  exists (backfilled relationships resource).
  split; [apply ensureRelationshipIds_object|].
  inv_binds H. injection H as <- _. inv_binds Hx. by simplify_eq.
Qed.

(** X17.  With relationships, a document from the serializer whose
    [data] is missing or [null] makes the normalization throw, at the
    read of [result.data.relationships].  A document that has a [data]
    object but neither [relationships] nor [included] passes through,
    with an [included] key set to [undefined] added. *)
Theorem normalizeSingle_bare_document (document : value) (type : string)
    (relationships : list value) (url : string)
    (relationshipTypeMap : gmap string string) (resource resource' : value)
    (r : gmap string value) :
  get document type = Ok resource →
  serializeResource resource type relationships true = Ok (resource', VObject r) →
  (r !! "data" = None ∨ r !! "data" = Some VNull →
   normalizeSingle document type relationships true url relationshipTypeMap =
     Throws) ∧
  (∀ d : gmap string value,
     r !! "data" = Some (VObject d) → d !! "relationships" = None →
     r !! "included" = None →
     normalizeSingle document type relationships true url relationshipTypeMap =
       Ok (store_back document type resource',
           VObject (<["included" := VUndefined]> r))).
Proof.
  intros Hget Hser. split.
  - intros Hdata. unfold normalizeSingle. rewrite Hget.
    cbn -[serializeResource addJsonApiLinks mapTypes]. rewrite Hser.
    cbn -[addJsonApiLinks mapTypes]. by destruct Hdata as [-> | ->].
  - intros d Hdata Hrels Hincluded. unfold normalizeSingle. rewrite Hget.
    cbn -[serializeResource addJsonApiLinks mapTypes]. rewrite Hser.
    cbn -[addJsonApiLinks mapTypes]. rewrite Hdata.
    cbn -[addJsonApiLinks mapTypes]. rewrite Hrels. cbn.
    rewrite (insert_id r "data") by done. by rewrite Hincluded.
Qed.

(** ** Lines 215-270: termination *)

Lemma array_depth_element (x : value) (items : list value) :
  x ∈ items → (array_depth x < array_depth (VArray items))%nat.
Proof.
  intros Hin. cbn. apply Nat.lt_succ_r.
  induction Hin as [x items | x y items _ IH]; cbn; lia.
Qed.

Lemma normalizeResourceRecursive_settled (fuel : nat) (document : value)
    (type : string) (relationships : list value) (hasRelationships : bool)
    (url : string) (relationshipTypeMap : gmap string string) :
  (∀ v, get document (pluralize type) = Ok v → (array_depth v < fuel)%nat) →
  (0 < fuel)%nat →
  settled (normalizeResourceRecursive fuel document type relationships
             hasRelationships url relationshipTypeMap).
Proof.
  revert document. induction fuel as [|fuel IH]; intros document Hdepth Hpos;
    [lia|].
  destruct (normalizeResourceRecursive_cases fuel document type relationships
              hasRelationships url relationshipTypeMap)
    as [[-> H] | [(v & Hget & Hv & ->) | (items & Hget & ->)]]; [done| |].
  - apply settled_normalizeSingle.
  - specialize (Hdepth _ Hget).
    apply settled_bind.
    + apply settled_mapM. intros x Hx. unfold normalizeElement.
      pose proof (array_depth_element _ _ Hx) as Hlt.
      apply settled_bind.
      * apply IH; [|lia]. intros v Hv. cbn in Hv. injection Hv as <-.
        destruct (decide (type = pluralize type)) as [<- | Hne].
        -- rewrite lookup_singleton_eq. cbn -[array_depth]. lia.
        -- rewrite lookup_singleton_ne by done. cbn. lia.
      * intros [single' r] _. repeat settle_step.
    + intros resources _. unfold aggregate, includedOf. repeat settle_step.
Qed.

(** X18.  The recursion terminates on every payload.  A fuel greater
    than the depth to which arrays are nested in the value under the
    plural key is enough for the call to come to an end, with a result
    or a thrown error, and every larger fuel gives that same outcome. *)
Theorem normalizeResourceRecursive_terminates (document : value)
    (type : string) (relationships : list value) (hasRelationships : bool)
    (url : string) (relationshipTypeMap : gmap string string) :
  let fuel := S (array_depth (prop_of document (pluralize type))) in
  settled (normalizeResourceRecursive fuel document type relationships
             hasRelationships url relationshipTypeMap) ∧
  ∀ fuel', (fuel ≤ fuel')%nat →
    normalizeResourceRecursive fuel' document type relationships
      hasRelationships url relationshipTypeMap =
    normalizeResourceRecursive fuel document type relationships
      hasRelationships url relationshipTypeMap.
Proof.
  intros fuel.
  assert (settled (normalizeResourceRecursive fuel document type relationships
                     hasRelationships url relationshipTypeMap)) as Hs.
  { apply normalizeResourceRecursive_settled; [|subst fuel; lia].
    intros v Hv. subst fuel. unfold prop_of. rewrite Hv. lia. }
  split; [done|]. intros fuel' Hle. by apply fuel_monotone_le.
Qed.

(** X19.  A payload whose plural key holds a truthy value that is not an
    array is classified as a collection, and the normalization throws
    when it calls [map] on that value: whatever the value is (a string,
    a number, [true], an object), whatever the other keys hold, and
    whether or not the type has relationships. *)
Theorem normalizeResourceRecursive_non_array_throws (fuel : nat)
    (o : gmap string value) (type : string) (relationships : list value)
    (hasRelationships : bool) (url : string)
    (relationshipTypeMap : gmap string string) (elements : value) :
  o !! pluralize type = Some elements →
  truthy elements = true →
  isArray elements = false →
  isCollectionResponse [type] (VObject o) = Ok true ∧
  normalizeResourceRecursive (S fuel) (VObject o) type relationships
    hasRelationships url relationshipTypeMap = Throws.
Proof.
  intros Helements Htruthy Hshape.
  assert (isCollectionResponse [type] (VObject o) = Ok true) as Hcollection.
  { rewrite isCollectionResponse_single, get_object. unfold field_of.
    rewrite Helements. cbn. by rewrite Htruthy. }
  split; [exact Hcollection|].
  cbn [normalizeResourceRecursive]. rewrite Hcollection. cbn.
  unfold field_of. rewrite Helements. cbn.
  by destruct elements.
Qed.

End Normalizer.

(** * The normalizer on concrete payloads *)

(** C1.  The payload [{ tags: "ember" }] holds a string, not an array,
    under the plural key of [tag]; [isCollectionResponse] answers [true]
    all the same, and the normalization, having taken the collection
    branch, throws when it calls [map] on the string. *)
Theorem isCollectionResponse_accepts_non_array :
  let payload := VObject {["tags" := VString "ember"]} in
  get payload (pluralize_model "tag") = Ok (VString "ember") ∧
  isArray (VString "ember") = false ∧
  isCollectionResponse pluralize_model ["tag"] payload = Ok true ∧
  normalizeResource pluralize_model serialize_model 2 payload
    {| request_schema := appSchema; request_url := "/api/tags" |} appTypeMap =
    Throws.
Proof. vm_compute. done. Qed.

(** C2, the claim as stated fails.  The application's [article] type
    declares the relationship [author]; the empty collection
    [{ articles: [] }] normalizes to a document whose [included] is the
    empty array, not [undefined]. *)
Lemma empty_collection_included_not_undefined :
  let payload := VObject {["articles" := VArray []]} in
  getSchemaRelationships (Some appSchema) "article" = [VString "author"] ∧
  ∃ result,
    normalizeResource pluralize_model serialize_model 2 payload appRequest
      appTypeMap = Ok (payload, result) ∧
    get result "data" = Ok (VArray []) ∧
    get result "included" = Ok (VArray []) ∧
    get result "included" ≠ Ok VUndefined.
Proof.
  split; [reflexivity|].
  exists (VObject (<["included" := VArray []]> {["data" := VArray []]})).
  split; [vm_compute; reflexivity|]. repeat split; done.
Qed.

Lemma empty_collection_included_empty_witness :
  let payload := VObject {["articles" := VArray []]} in
  normalizeResourceRecursive pluralize_model serialize_model 1 payload "article"
    [VString "author"] true "/api/articles" appTypeMap =
  Ok (payload, VObject (<["included" := VArray []]> {["data" := VArray []]})).
Proof.
  apply (empty_collection_included_empty pluralize_model serialize_model 0).
  reflexivity.
Defined.



(** C5, the claim as stated fails.  The resource [{ id: 0, slug: "intro" }]
    has an [id], so the first present field is [id] with value 0; the
    resolver skips it, because 0 is falsy, and returns the slug. *)
Lemma extractResourceId_skips_falsy_id :
  let o : gmap string value := <["id" := VNumber 0]> {["slug" := VString "intro"]} in
  resolveId_by_presence o = VNumber 0 ∧
  extractResourceId (VObject o) = Ok (VString "intro") ∧
  extractResourceId (VObject o) ≠ Ok (resolveId_by_presence o).
Proof. vm_compute. repeat split; done. Qed.

Lemma extractResourceId_first_truthy_witness :
  extractResourceId (VNumber 42) = Ok (VString "42") ∧
  extractResourceId (VObject {["slug" := VString "intro"]}) = Ok (VString "intro").
Proof.
  destruct extractResourceId_first_truthy as (Hprimitive & _ & Hslug).
  split; [apply Hprimitive | apply Hslug]; reflexivity.
Defined.



(** C9, the claim as stated fails.  "sheep" is its own plural, so the
    payload that wraps one sheep is classified as a collection, and a
    payload of nested arrays is normalized at depth three: a fuel of two
    does not reach the end. *)
Lemma wrapped_sheep_is_a_collection :
  let dolly := VObject {["id" := VNumber 1]} in
  let nested := VObject {["sheep" := VArray [VArray [VArray []]]]} in
  pluralize_model "sheep" = "sheep" ∧
  isCollectionResponse pluralize_model ["sheep"] (VObject {["sheep" := dolly]}) =
    Ok true ∧
  normalizeResourceRecursive pluralize_model serialize_model 2 nested "sheep"
    [] false "/api/sheep" appTypeMap = NoFuel ∧
  normalizeResourceRecursive pluralize_model serialize_model 3 nested "sheep"
    [] false "/api/sheep" appTypeMap =
    Ok (nested, VObject {["data" := VArray [VArray [VArray []]]]}).
Proof. vm_compute. done. Qed.

Lemma recursion_depth_one_witness :
  isCollectionResponse pluralize_model ["tag"] (VObject {["tag" := VString "ember"]}) =
    Ok false.
Proof.
  assert (pluralize_model "tag" ≠ "tag") as Hne by (vm_compute; discriminate).
  exact (proj1 (recursion_depth_one pluralize_model serialize_model "tag" Hne)
           (VString "ember")).
Defined.





(** * Further properties on concrete payloads *)

Lemma extractResourceId_throws_iff_witness :
  extractResourceId (VObject {["title" := VString "X"]}) = Ok VUndefined ∧
  ∃ id, extractResourceId (VArray []) = Ok id.
Proof.
  destruct extractResourceId_throws_iff as (_ & Hreturns & Hmissing).
  split; [by apply Hmissing | by apply Hreturns].
Defined.



Lemma getSchemaRelationships_declared_witness :
  getSchemaRelationships (Some appSchema) "article" = [VString "author"] ∧
  getSchemaRelationships (Some appSchema) "tag" = [].
Proof.
  split.
  - destruct (getSchemaRelationships_declared appSchema "article" articleFields
                eq_refl) as [Hnames _]; [repeat constructor|].
    rewrite Hnames. reflexivity.
  - destruct (getSchemaRelationships_declared appSchema "tag" tagFields
                eq_refl) as [_ Hnone]; [repeat constructor|].
    apply Hnone. repeat constructor.
Defined.

Lemma coerced_primitive_identifier_witness :
  extractResourceId
    (coerce (inferPropertyName (Some appSchema) "tag") (VString "ember")) =
    Ok (VString "ember").
Proof.
  destruct (coerced_primitive_identifier (Some appSchema) "tag" (VString "ember"))
    as [Hresolves _].
  destruct Hresolves as [Hid _]; [discriminate|]. exact Hid.
Defined.


Lemma ensureRelationshipIds_postcondition_witness :
  let author : gmap string value := {["username" := VString "jd"]} in
  let article : gmap string value :=
    <["title" := VString "X"]> {["author" := VObject author]} in
  ∃ article',
    ensureRelationshipIds (VObject article) [VString "author"] =
      Ok (VObject article') ∧
    article' !! "title" = Some (VString "X") ∧
    length (itemsOf (field_of article' "author")) = 1%nat.
Proof.
  intros author article.
  destruct (ensureRelationshipIds_postcondition article [VString "author"])
    as (article' & Hrun & _ & Hframe & Hlength & _).
  exists article'. split; [exact Hrun|]. split.
  - rewrite Hframe; [reflexivity|].
    intros Hin. apply list_elem_of_singleton in Hin. discriminate.
  - destruct (Hlength (VString "author")) as [_ Hsame]; [apply list_elem_of_here|].
    exact Hsame.
Defined.

Lemma addJsonApiLinks_effect_witness :
  let rels : gmap string value := {["author" := VObject ∅]} in
  addJsonApiLinks VUndefined "/api/articles" (VNumber 7) = Ok VUndefined ∧
  ∃ rels' rel' : gmap string value,
    addJsonApiLinks (VObject rels) "/api/articles" (VNumber 7) = Ok (VObject rels') ∧
    rels' !! "author" = Some (VObject rel') ∧
    rel' !! "links" =
      Some (VObject (<["self" := VString "/api/articles/7/relationships/author"]>
                       {["related" := VString "/api/articles/7/author"]})).
Proof.
  intros rels.
  destruct (addJsonApiLinks_effect "/api/articles" (VNumber 7)) as [Hfalsy Hobjects].
  split; [by apply Hfalsy|].
  destruct (Hobjects rels) as (rels' & Hrun & _ & Hlinks).
  { intros name relationship [_ <-]%lookup_singleton_Some. reflexivity. }
  destruct (Hlinks "author" ∅ eq_refl) as (rel' & Hrel' & _ & Hlink).
  exists rels', rel'. split; [exact Hrun|]. split; [exact Hrel'|].
  rewrite Hlink. vm_compute. reflexivity.
Defined.

Lemma mapTypes_relationships_frame_witness :
  let linkage := VObject (<["type" := VString "author"]> {["id" := VString "jd"]}) in
  let rel : gmap string value := {["data" := linkage]} in
  let rels : gmap string value := {["author" := VObject rel]} in
  ∃ rels' rel' : gmap string value,
    mapTypes (VObject rels) appTypeMap = Ok (VObject rels', VObject rels') ∧
    rels' !! "author" = Some (VObject rel') ∧
    Forall2 (λ item item', ∀ k, k ≠ "type" → get item' k = get item k)
      [linkage] (itemsOf (field_of rel' "data")).
Proof.
  intros linkage rel rels.
  destruct (mapTypes_relationships_frame rels appTypeMap)
    as (rels' & Hrun & _ & Hframe).
  { intros name relationship [_ <-]%lookup_singleton_Some.
    exists rel. split; [done|]. intros _. repeat constructor. }
  destruct (Hframe "author" rel eq_refl) as (rel' & Hrel' & _ & _ & Hitems).
  exists rels', rel'. split; [exact Hrun|]. split; [exact Hrel'|]. exact Hitems.
Defined.


Lemma normalizeResourceRecursive_plain_witness :
  let tag := VObject (<["id" := VString "ember"]> {["name" := VString "ember"]}) in
  let document := VObject {["tags" := VArray [tag]]} in
  ∃ document' result,
    normalizeResourceRecursive pluralize_model serialize_model 2 document "tag"
      [] false "/api/tags" appTypeMap = Ok (document', result) ∧
    document' = document ∧
    normalizeResourceRecursive pluralize_model serialize_model 2 document "tag"
      [VString "author"] false "/elsewhere" ∅ = Ok (document', result).
Proof.
  intros tag document.
  destruct (normalizeResourceRecursive_plain pluralize_model serialize_model 2
              document "tag" [] "/api/tags" appTypeMap) as [Hsame Hindependent].
  let v := eval vm_compute in
    (normalizeResourceRecursive pluralize_model serialize_model 2 document "tag"
       [] false "/api/tags" appTypeMap) in
  match v with
  | Ok (?p, ?r) =>
      assert (normalizeResourceRecursive pluralize_model serialize_model 2
                document "tag" [] false "/api/tags" appTypeMap = Ok (p, r))
        as Hrun by (vm_compute; reflexivity);
      exists p, r
  end.
  split; [exact Hrun|]. split; [exact (Hsame _ _ Hrun)|].
  etransitivity; [exact (Hindependent [VString "author"] "/elsewhere" ∅)|].
  exact Hrun.
Defined.

Lemma collection_result_shape_witness :
  let first := VObject {["slug" := VString "intro"]} in
  let second := VObject {["slug" := VString "outro"]} in
  let document := VObject {["articles" := VArray [first; second]]} in
  ∃ document' result datas,
    normalizeResourceRecursive pluralize_model serialize_model 2 document
      "article" [] false "/api/articles" appTypeMap = Ok (document', result) ∧
    length datas = 2%nat ∧
    result = VObject {["data" := VArray datas]}.
Proof.
  intros first second document.
  let v := eval vm_compute in
    (normalizeResourceRecursive pluralize_model serialize_model 2 document
       "article" [] false "/api/articles" appTypeMap) in
  match v with
  | Ok (?p, ?r) =>
      assert (normalizeResourceRecursive pluralize_model serialize_model 2
                document "article" [] false "/api/articles" appTypeMap =
              Ok (p, r)) as Hrun by (vm_compute; reflexivity);
      exists p, r
  end.
  destruct (collection_result_shape pluralize_model serialize_model 1 document
              "article" [] false "/api/articles" appTypeMap [first; second]
              _ _ eq_refl Hrun) as (datas & Hlength & Hresult).
  exists datas. split; [exact Hrun|]. split; [exact Hlength | exact Hresult].
Defined.

Lemma normalizeResource_singleton_witness :
  let tag : gmap string value := {["name" := VString "ember"]} in
  let payload : gmap string value := {["tag" := VObject tag]} in
  ∃ result,
    normalizeResource pluralize_model serialize_model 1 (VObject payload)
      appRequest appTypeMap = Ok (VObject payload, result) ∧
    serialize_model (VObject (<["id" := VString "ember"]> tag)) "tag"
      (serializeOptions [] false) = Some result.
Proof.
  intros tag payload.
  rewrite (normalizeResource_singleton pluralize_model serialize_model 0 payload
             appRequest appTypeMap "tag" (VObject tag)
             eq_refl eq_refl eq_refl eq_refl).
  let v := eval vm_compute in
    (serialize_model (VObject (<["id" := VString "ember"]> tag)) "tag"
       (serializeOptions [] false)) in
  match v with
  | Some ?r => exists r
  end.
  split; vm_compute; reflexivity.
Defined.

Lemma normalizeResource_primitive_collection_witness :
  let payload : gmap string value :=
    {["tags" := VArray [VString "ember"; VNumber 7]]} in
  let element := coerce (inferPropertyName (Some appSchema) "tag") in
  ∃ datas,
    normalizeResource pluralize_model serialize_model 2 (VObject payload)
      appRequest appTypeMap =
      Ok (VObject {["tags" := VArray [element (VString "ember");
                                      element (VNumber 7)]]},
          VObject {["data" := VArray datas]}) ∧
    length datas = 2%nat.
Proof.
  intros payload element.
  rewrite (normalizeResource_primitive_collection pluralize_model serialize_model
             0 payload appRequest appTypeMap "tag"
             [VString "ember"; VNumber 7] eq_refl eq_refl).
  - let v := eval vm_compute in
      (mapM (λ item, throwing (serialize_model (element item) "tag"
                                 (serializeOptions [] false)))
         [VString "ember"; VNumber 7] ≫= mapM (λ r, get r "data")) in
    match v with
    | Ok ?datas => exists datas
    end.
    split; vm_compute; reflexivity.
  - discriminate.
  - repeat constructor; discriminate.
  - reflexivity.
  - discriminate.
Defined.

Lemma normalizeSingle_payload_witness :
  let author : gmap string value := {["username" := VString "jd"]} in
  let article : gmap string value :=
    <["slug" := VString "intro"]> {["author" := VObject author]} in
  let o : gmap string value := {["article" := VObject article]} in
  ∃ (document' result : value) (article' : gmap string value),
    normalizeSingle serialize_model (VObject o) "article" [VString "author"]
      true "/api/articles" appTypeMap = Ok (document', result) ∧
    ensureRelationshipIds (VObject article) [VString "author"] =
      Ok (VObject article') ∧
    document' = VObject (<["article" := VObject article']> o).
Proof.
  intros author article o.
  let v := eval vm_compute in
    (normalizeSingle serialize_model (VObject o) "article" [VString "author"]
       true "/api/articles" appTypeMap) in
  match v with
  | Ok (?p, ?r) =>
      assert (normalizeSingle serialize_model (VObject o) "article"
                [VString "author"] true "/api/articles" appTypeMap =
              Ok (p, r)) as Hrun by (vm_compute; reflexivity);
      exists p, r
  end.
  destruct (normalizeSingle_payload serialize_model o "article"
              [VString "author"] "/api/articles" appTypeMap article _ _
              eq_refl Hrun) as (article' & Hfilled & Hpayload).
  exists article'. split; [exact Hrun|]. split; [exact Hfilled | exact Hpayload].
Defined.

Lemma normalizeSingle_bare_document_witness :
  let article := VObject {["slug" := VString "intro"]} in
  let document := VObject {["article" := article]} in
  let empty : value → string → value → option value :=
    λ _ _ _, Some (VObject {["data" := VNull]}) in
  let bare : value → string → value → option value :=
    λ _ _ _, Some (VObject {["data" := VObject ∅]}) in
  normalizeSingle empty document "article" [VString "author"] true
    "/api/articles" appTypeMap = Throws ∧
  normalizeSingle bare document "article" [VString "author"] true
    "/api/articles" appTypeMap =
    Ok (document,
        VObject (<["included" := VUndefined]> {["data" := VObject ∅]})).
Proof.
  intros article document empty bare. split.
  - apply (proj1 (normalizeSingle_bare_document empty document "article"
                    [VString "author"] "/api/articles" appTypeMap article
                    article {["data" := VNull]} eq_refl eq_refl)).
    right. reflexivity.
  - apply (proj2 (normalizeSingle_bare_document bare document "article"
                    [VString "author"] "/api/articles" appTypeMap article
                    article {["data" := VObject ∅]} eq_refl eq_refl) ∅);
      reflexivity.
Defined.

Lemma normalizeResourceRecursive_terminates_witness :
  let document := VObject {["sheep" := VArray [VArray [VArray []]]]} in
  normalizeResourceRecursive pluralize_model serialize_model 9 document "sheep"
    [] false "/api/sheep" appTypeMap =
  normalizeResourceRecursive pluralize_model serialize_model 4 document "sheep"
    [] false "/api/sheep" appTypeMap.
Proof.
  intros document.
  apply (proj2 (normalizeResourceRecursive_terminates pluralize_model
                  serialize_model document "sheep" [] false "/api/sheep"
                  appTypeMap)).
  vm_compute. repeat constructor.
Defined.

Lemma normalizeResourceRecursive_non_array_throws_witness :
  let article := VObject {["slug" := VString "intro"]} in
  let o : gmap string value :=
    <["article" := article]> {["articles" := VNumber 1]} in
  normalizeResourceRecursive pluralize_model serialize_model 1 (VObject o)
    "article" [VString "author"] true "/api/articles" appTypeMap = Throws.
Proof.
  intros article o.
  apply (proj2 (normalizeResourceRecursive_non_array_throws pluralize_model
                  serialize_model 0 o "article" [VString "author"] true
                  "/api/articles" appTypeMap (VNumber 1)
                  eq_refl eq_refl eq_refl)).
Defined.
